(** * HLS download and conversion pipeline of [server.js]

    A shallow embedding of the pipeline of [src/server.js]: the playlist
    parser and segment downloader ([downloadHLS]), the converter
    ([convertTsToMp4], [runFFmpeg]), the resolver ([extractTwitchM3U8]),
    the orchestrator ([app.post('/download-vod')]) and the artifact route
    ([app.get('/vod/:fileName')]).

    Conventions of the model.
    - A JavaScript string is a [string]; a character stands for a UTF-16
      code unit below 256, so the white space that [trim] strips is
      9-13, 32 and 160.
    - The network, the external tool and the clock are the environment: a
      record of oracles, indexed by the number of external calls made so
      far, so that the same URL may answer differently at different times.
    - The file system is a finite map from paths to file contents: it
      holds regular files only.  [unlinkSync] and [statSync] fail on a
      missing path only, and a write to an open file does not fail.
      Whether a path can be opened for writing is the environment's to
      say: the directory of the path may be missing.  The artifact route
      alone is given a disk with directories.
    - [async] functions are state passing computations that return a value,
      throw a JavaScript [Error] (kept as its message), do not return, or
      end the process: an ['error'] event that no listener gets is an
      exception that no [catch] block sees.
    - The fields of a request body are JSON values. *)

From Stdlib Require Import ZArith Ascii String Strings.Byte.
From stdpp Require Import gmap strings list fin_maps pretty.

Local Open Scope string_scope.
Local Open Scope Z_scope.

Set Warnings "-register-all".

(** ** JavaScript string operations used by the source *)

Module JS.

(** [s.startsWith(p)] *)
Definition startsWith (s p : string) : bool := String.prefix p s.

(** [s.includes(sub)] *)
Fixpoint includes (s sub : string) : bool :=
  String.prefix sub s ||
  match s with
  | EmptyString => false
  | String _ s' => includes s' sub
  end.

(** A string used as a condition: [""] is falsy. *)
Definition truthy (s : string) : bool :=
  match s with EmptyString => false | String _ _ => true end.

(** [s.split('\n')] *)
Fixpoint split_newline (s : string) : list string :=
  match s with
  | EmptyString => [EmptyString]
  | String c s' =>
      if Ascii.eqb c "010"%char then EmptyString :: split_newline s'
      else match split_newline s' with
           | [] => [String c EmptyString]
           | l :: ls => String c l :: ls
           end
  end.

(** [s.lastIndexOf(c)]: the index of the last [c], or -1. *)
Fixpoint lastIndexOf_from (i : Z) (s : string) (c : ascii) (found : Z) : Z :=
  match s with
  | EmptyString => found
  | String a s' =>
      lastIndexOf_from (i + 1) s' c (if Ascii.eqb a c then i else found)
  end.

Definition lastIndexOf (s : string) (c : ascii) : Z :=
  lastIndexOf_from 0 s c (-1).

(** [s.substring(0, e)] *)
Definition substring0 (s : string) (e : Z) : string :=
  String.substring 0 (Z.to_nat e) s.

(** White space of [String.prototype.trim] among the code units below 256. *)
Definition is_whitespace (c : ascii) : bool :=
  let n := N_of_ascii c in
  ((9 <=? n) && (n <=? 13) || (n =? 32) || (n =? 160))%N.

Fixpoint trimStart (s : string) : string :=
  match s with
  | EmptyString => EmptyString
  | String c s' => if is_whitespace c then trimStart s' else s
  end.

Fixpoint trimEnd (s : string) : string :=
  match s with
  | EmptyString => EmptyString
  | String c s' =>
      match trimEnd s' with
      | EmptyString => if is_whitespace c then EmptyString else String c EmptyString
      | t => String c t
      end
  end.

(** [s.trim()] *)
Definition trim (s : string) : string := trimEnd (trimStart s).

(** [s.length] *)
Definition length (s : string) : Z := Z.of_nat (String.length s).

(** A field of a JSON request body; [Undefined] is an absent field.  A
    number is kept as an integer: the program only tests whether it is
    zero.  The fields of an object are left out: none of them is a
    method. *)
Inductive value : Type :=
| Undefined
| Null
| Bool (b : bool)
| Number (n : Z)
| Str (s : string)
| Arr (items : list value)
| Obj.

(** A value used as a condition. *)
Definition truthy_value (v : value) : bool :=
  match v with
  | Undefined | Null => false
  | Bool b => b
  | Number n => negb (n =? 0)
  | Str s => truthy s
  | Arr _ | Obj => true
  end.

(** [items.includes(s)] of an array, for a string [s]. *)
Definition array_includes (items : list value) (s : string) : bool :=
  existsb (fun item => match item with Str t => String.eqb t s | _ => false end) items.

(** [String(v)]: an array is its items joined by commas, [null] and
    [undefined] items being empty. *)
Fixpoint to_string (v : value) : string :=
  match v with
  | Undefined => "undefined"
  | Null => "null"
  | Bool b => if b then "true" else "false"
  | Number n => pretty n
  | Str s => s
  | Arr items =>
      String.concat ","
        (map (fun item => match item with
                          | Undefined | Null => EmptyString
                          | _ => to_string item
                          end) items)
  | Obj => "[object Object]"
  end.

End JS.

(** ** Playlist parsing: lines 398-436 of [downloadHLS] *)

Module Parser.

Definition STREAM_INF : string := "#EXT-X-STREAM-INF".

(** [m3u8Url.substring(0, m3u8Url.lastIndexOf('/') + 1)] *)
Definition baseUrl (m3u8Url : string) : string :=
  JS.substring0 m3u8Url (JS.lastIndexOf m3u8Url "/"%char + 1).

(** [lines.some(line => line.includes('#EXT-X-STREAM-INF'))] *)
Definition isMasterPlaylist (lines : list string) : bool :=
  existsb (fun line => JS.includes line STREAM_INF) lines.

(** [x.startsWith('http') ? x : baseUrl + x] *)
Definition resolve (base x : string) : string :=
  if JS.startsWith x "http" then x else base +:+ x.

(** The loop of lines 412-421: at the first marker line whose next line
    exists, is not empty and does not start with [#], that next line is
    the stream URL.  [lines[i + 1]] is the head of the rest of the list. *)
Fixpoint first_stream_url (lines : list string) : option string :=
  match lines with
  | [] => None
  | line :: rest =>
      if JS.includes line STREAM_INF then
        match rest with
        | streamUrl :: _ =>
            if JS.truthy streamUrl && negb (JS.startsWith streamUrl "#")
            then Some streamUrl
            else first_stream_url rest
        | [] => first_stream_url rest
        end
      else first_stream_url rest
  end.

(** The guard of line 426:
    [line && !line.startsWith('#') && line.trim().length > 0] *)
Definition is_segment_line (line : string) : bool :=
  JS.truthy line && negb (JS.startsWith line "#") && (0 <? JS.length (JS.trim line)).

(** The loop of lines 425-430, with [segments.push] as an append. *)
Fixpoint collect_segments (base : string) (lines segments : list string)
  : list string :=
  match lines with
  | [] => segments
  | line :: rest =>
      if is_segment_line line
      then collect_segments base rest (segments ++ [resolve base line])
      else collect_segments base rest segments
  end.

(** What [downloadHLS] decides from the playlist text: recurse into the
    first variant, download a list of segments, or throw. *)
Inductive parsed : Type :=
| Master (fullStreamUrl : string)
| Media (segments : list string)
| ParseError (message : string).

Definition NO_SEGMENTS : string := "No segments found in playlist".

Definition media_branch (base : string) (lines : list string) : parsed :=
  let segments := collect_segments base lines [] in
  if (Z.of_nat (List.length segments) =? 0) then ParseError NO_SEGMENTS
  else Media segments.

Definition parse_playlist (m3u8Url playlist : string) : parsed :=
  let lines := JS.split_newline playlist in
  let base := baseUrl m3u8Url in
  if isMasterPlaylist lines then
    match first_stream_url lines with
    | Some streamUrl => Master (resolve base streamUrl)
    | None => media_branch base lines
    end
  else media_branch base lines.

End Parser.

(** ** The environment, the state and the computations *)

Module Effects.

(** What an [await]ed call comes to.  [Crash]: an exception outside every
    [try] block and every promise, such as an ['error'] event without a
    listener; Node prints it and the process ends. *)
Inductive outcome (A : Type) : Type :=
| Return (a : A)
| Throw (message : string)
| Diverge
| Crash (message : string).
Arguments Return {A} a.
Arguments Throw {A} message.
Arguments Diverge {A}.
Arguments Crash {A} message.

(** What the network does with a request: [axios] resolves, [axios]
    rejects, or nothing ever comes back. *)
Inductive reply (A : Type) : Type :=
| Resolved (a : A)
| Rejected (message : string)
| Silent.
Arguments Resolved {A} a.
Arguments Rejected {A} message.
Arguments Silent {A}.

(** A response stream: the chunks of its ['data'] events, then ['end'] or
    ['error']. *)
Inductive stream_end : Type :=
| StreamEnd
| StreamError (message : string).

Record stream : Type := { chunks : list (list byte); ending : stream_end }.

(** A spawned process: ['close'] with its exit code ([null] when killed by
    a signal) and what it wrote, ['error'] when it could not be started, or
    a process that stays alive. *)
Inductive process_exit : Type :=
| Closed (code : option Z) (stdout stderr : string)
| SpawnError (message : string)
| Hangs.

Record environment : Type := {
  http_head : nat -> string -> reply Z;
  http_get : nat -> string -> reply string;
  http_stream : nat -> string -> reply stream;
  run_process : nat -> string -> list string -> gmap string (list byte) ->
                process_exit * gmap string (list byte);
  regex_m3u8 : string -> list string;
  ffmpegPath : option string;
  DOWNLOAD_DIR : string;
  Date_now : Z;
  (** the error with which opening a path for writing fails, when it
      does: the directory of the path is missing, the path is a
      directory *)
  open_error : string -> option string;
  (** [axios] rejects the request without sending it (a protocol it does
      not support): the rejection is there within the turn of the event
      loop in which the request was made *)
  unsent : nat -> string -> bool
}.

(** The three invocation profiles of [convertTsToMp4]. *)
Inductive strategy : Type := Copy | Reencode | Basic.

(** The console lines of the converter (the other console output of the
    program is not recorded):
    - [Trying]: "Trying fast conversion (copy streams): in -> out",
      "Trying re-encoding conversion: ...", "Trying basic conversion: ...";
    - [Successful]: "Fast MP4 conversion successful", "Re-encoding MP4
      conversion successful", "Basic MP4 conversion successful";
    - [FailedTrying]: "Fast conversion failed, trying re-encoding..." and
      "Re-encoding conversion failed, trying basic conversion...", with the
      error message;
    - [AllFailed]: "All conversion strategies failed";
    - [FFmpegCommand]: "FFmpeg command: " and the joined arguments. *)
Inductive console_line : Type :=
| Trying (s : strategy) (inputPath outputPath : string)
| Successful (s : strategy)
| FailedTrying (s : strategy) (message : string)
| AllFailed
| FFmpegCommand (args : list string).

(** What the program does to the outside, in order.  [timeout] and [timer]
    are the bound the call is given, when it is given one. *)
Inductive event : Type :=
| AxiosHead (url : string) (timeout : option Z)
| AxiosGet (url : string) (responseType_stream : bool) (timeout : option Z)
| Spawn (command : string) (args : list string) (timer : option Z)
| Kill (signal : string)
| Console (line : console_line).

Record world : Type := {
  fs : gmap string (list byte);
  trace : list event;
  calls : nat
}.

Definition M (A : Type) : Type := world -> outcome A * world.

Definition ret {A} (a : A) : M A := fun w => (Return a, w).
Definition throw {A} (message : string) : M A := fun w => (Throw message, w).
Definition diverge {A} : M A := fun w => (Diverge, w).
Definition crash {A} (message : string) : M A := fun w => (Crash message, w).

Definition bind {A B} (m : M A) (k : A -> M B) : M B :=
  fun w =>
    match m w with
    | (Return a, w') => k a w'
    | (Throw message, w') => (Throw message, w')
    | (Diverge, w') => (Diverge, w')
    | (Crash message, w') => (Crash message, w')
    end.

(** [try { m } catch (error) { handler(error.message) }]: what is thrown
    inside is caught; the end of the process is not. *)
Definition try_catch {A} (m : M A) (handler : string -> M A) : M A :=
  fun w =>
    match m w with
    | (Throw message, w') => handler message w'
    | r => r
    end.

Notation "'let!' x ':=' m 'in' k" := (bind m (fun x => k))
  (at level 10, x name, m at level 100, k at level 200).
Notation "m ';;' k" := (bind m (fun _ => k))
  (at level 100, k at level 200, right associativity).

(** The state after one more event. *)
Definition logged (e : event) (w : world) : world :=
  {| fs := fs w; trace := trace w ++ [e]; calls := calls w |}.

Definition emit (e : event) : M unit := fun w => (Return tt, logged e w).

(** The index of the next external call. *)
Definition next_call : M nat :=
  fun w => (Return (calls w), {| fs := fs w; trace := trace w; calls := S (calls w) |}).

Definition get_fs : M (gmap string (list byte)) := fun w => (Return (fs w), w).

Definition put_fs (files : gmap string (list byte)) : M unit :=
  fun w => (Return tt, {| fs := files; trace := trace w; calls := calls w |}).

(** A request that gets no answer is rejected when its timeout expires, and
    never settles when it has none. *)
Definition settle {A} (timeout : option Z) (r : reply A) : M A :=
  match r with
  | Resolved a => ret a
  | Rejected message => throw message
  | Silent =>
      match timeout with
      | Some ms => throw ("timeout of " +:+ pretty ms +:+ "ms exceeded")
      | None => diverge
      end
  end.

Section WithEnvironment.

Variable env : environment.

Definition axios_head (url : string) (timeout : option Z) : M Z :=
  emit (AxiosHead url timeout) ;;
  let! n := next_call in
  settle timeout (http_head env n url).

Definition axios_get (url : string) (timeout : option Z) : M string :=
  emit (AxiosGet url false timeout) ;;
  let! n := next_call in
  settle timeout (http_get env n url).

Definition axios_get_stream (url : string) (timeout : option Z) : M stream :=
  emit (AxiosGet url true timeout) ;;
  let! n := next_call in
  settle timeout (http_stream env n url).

(** [fs.existsSync] *)
Definition existsSync (path : string) : M bool :=
  let! files := get_fs in
  ret (bool_decide (is_Some (files !! path))).

(** [fs.statSync(path).size] *)
Definition statSync_size (path : string) : M Z :=
  let! files := get_fs in
  match files !! path with
  | Some content => ret (Z.of_nat (List.length content))
  | None => throw ("ENOENT: no such file or directory, stat '" +:+ path +:+ "'")
  end.

(** [fs.unlinkSync] *)
Definition unlinkSync (path : string) : M unit :=
  let! files := get_fs in
  match files !! path with
  | Some _ => put_fs (delete path files)
  | None => throw ("ENOENT: no such file or directory, unlink '" +:+ path +:+ "'")
  end.

(** [fs.createWriteStream(path)] returns the stream at once and opens the
    file in the background.  The file is created, or emptied; or the open
    fails, and the stream will emit ['error'] with the message returned
    here, in the next turn of the event loop. *)
Definition createWriteStream (path : string) : M (option string) :=
  match open_error env path with
  | None =>
      let! files := get_fs in
      put_fs (<[path := []]> files) ;;
      ret None
  | Some message => ret (Some message)
  end.

(** A chunk written to the open write stream goes to the end of the file. *)
Definition write_chunk (path : string) (chunk : list byte) : M unit :=
  let! files := get_fs in
  put_fs (<[path := (default [] (files !! path) ++ chunk)%list]> files).

End WithEnvironment.

End Effects.

(** ** Segment download: lines 438-482 of [downloadHLS], and [downloadHLS] *)

Module Downloader.
Import Effects.

Definition NO_DOWNLOADS : string := "No segments were downloaded successfully".

Section WithEnvironment.

Variable env : environment.

(** [segmentResponse.data.pipe(writeStream, { end: false })] and the wait
    for ['end'] or ['error']: every chunk is written as it arrives. *)
Fixpoint write_chunks (outputPath : string) (data : list (list byte)) : M unit :=
  match data with
  | [] => ret tt
  | chunk :: more => write_chunk outputPath chunk ;; write_chunks outputPath more
  end.

Definition pipe (outputPath : string) (response : stream) : M unit :=
  write_chunks outputPath (chunks response) ;;
  match ending response with
  | StreamEnd => ret tt
  | StreamError message => throw message
  end.

(** The loop of lines 442-467. *)
Fixpoint segment_loop (outputPath : string) (segments : list string)
    (downloadedSegments : Z) : M Z :=
  match segments with
  | [] => ret downloadedSegments
  | segment :: rest =>
      let! downloadedSegments :=
        try_catch
          (let! segmentResponse := axios_get_stream env segment (Some 30000) in
           pipe outputPath segmentResponse ;;
           ret (downloadedSegments + 1))
          (fun segmentError => ret downloadedSegments) in
      segment_loop outputPath rest downloadedSegments
  end.

(** The same lines, 442-476, when the output file could not be opened.
    The ['error'] of the write stream is emitted in the first turn of the
    event loop that the function waits for, and no listener is there
    before line 473.  An answer of the network takes such a turn, so the
    process ends while the first request that was sent is awaited.  A
    request that [axios] rejects without sending it is rejected within
    the turn: the [catch] block of the segment gets it and the loop goes
    on.  When the loop ends so, the listener of line 473 is there in
    time, and the promise of lines 471-474 is rejected with the error. *)
Fixpoint segment_loop_unopened (message : string) (segments : list string) : M Z :=
  match segments with
  | [] => throw message
  | segment :: rest =>
      emit (AxiosGet segment true (Some 30000)) ;;
      let! n := next_call in
      match http_stream env n segment with
      | Rejected _ =>
          if unsent env n segment then segment_loop_unopened message rest
          else crash message
      | _ => crash message
      end
  end.

(** Lines 438-482. *)
Definition download_segments (segments : list string) (outputPath : string) : M Z :=
  let! failed := createWriteStream env outputPath in
  match failed with
  | None =>
      let! downloadedSegments := segment_loop outputPath segments 0 in
      if downloadedSegments =? 0 then throw NO_DOWNLOADS
      else ret downloadedSegments
  | Some message => segment_loop_unopened message segments
  end.

(** [downloadHLS]; [depth] bounds the chain of master playlists followed. *)
Fixpoint downloadHLS (depth : nat) (m3u8Url outputPath : string) : M Z :=
  match depth with
  | O => diverge
  | S depth' =>
      try_catch
        (let! playlist := axios_get env m3u8Url None in
         match Parser.parse_playlist m3u8Url playlist with
         | Parser.Master fullStreamUrl => downloadHLS depth' fullStreamUrl outputPath
         | Parser.ParseError message => throw message
         | Parser.Media segments => download_segments segments outputPath
         end)
        (fun message => throw ("HLS download failed: " +:+ message))
  end.

End WithEnvironment.

End Downloader.

(** ** Conversion: [runFFmpeg] and [convertTsToMp4] *)

Module Converter.
Import Effects.

(** The classification of lines 138-147. *)
Definition errorAnalysis (stderr : string) : string :=
  if JS.includes stderr "Invalid data found when processing input"
  then "Input TS file appears to be corrupted or invalid"
  else if JS.includes stderr "No space left on device"
  then "Insufficient disk space for conversion"
  else if JS.includes stderr "Permission denied"
  then "Permission denied writing output file"
  else if JS.includes stderr "moov atom not found"
  then "Input file is incomplete or corrupted"
  else "Unknown FFmpeg error".

(** An exit code inside a template string. *)
Definition show_code (code : option Z) : string :=
  match code with Some n => pretty n | None => "null" end.

Definition show_path (path : option string) : string :=
  match path with Some p => p | None => "null" end.

Definition EMPTY_OUTPUT : string := "Output file was created but is empty (0 bytes)".
Definition NO_OUTPUT : string := "FFmpeg reported success but output file was not created".
Definition TIMEOUT : string := "FFmpeg conversion timeout (5 minutes)".

Definition conversion_failed (code : option Z) (stderr : string) : string :=
  "FFmpeg conversion failed (" +:+ errorAnalysis stderr +:+ "): Exit code " +:+
  show_code code +:+ ". Error: " +:+ stderr.

Definition spawn_failed (message : string) : string :=
  "Failed to start FFmpeg process: " +:+ message.

Definition all_failed (message : string) : string :=
  "All FFmpeg conversion strategies failed. Last error: " +:+ message.

(** The argument vectors of lines 23-29, 39-48 and 58-63. *)
Definition strategy_args (s : strategy) (inputPath outputPath : string) : list string :=
  match s with
  | Copy =>
      ["-i"; inputPath; "-c"; "copy"; "-avoid_negative_ts"; "make_zero"; "-y"; outputPath]
  | Reencode =>
      ["-i"; inputPath; "-c:v"; "libx264"; "-c:a"; "aac"; "-preset"; "fast";
       "-crf"; "23"; "-avoid_negative_ts"; "make_zero"; "-y"; outputPath]
  | Basic =>
      ["-i"; inputPath; "-f"; "mp4"; "-y"; outputPath]
  end.

Section WithEnvironment.

Variable env : environment.

(** [spawn(command, args)] and the first event that settles the promise
    around it.  With a timer, a process that stays alive is killed when the
    timer fires; without one, nothing settles the promise. *)
Definition spawn (command : string) (args : list string) (timer : option Z)
  : M process_exit :=
  emit (Spawn command args timer) ;;
  let! n := next_call in
  let! files := get_fs in
  let (exit, files') := run_process env n command args files in
  put_fs files' ;;
  match exit, timer with
  | Hangs, None => diverge
  | _, _ => ret exit
  end.

(** [runFFmpeg] *)
Definition runFFmpeg (inputPath outputPath : string) (args : list string) : M unit :=
  emit (Console (FFmpegCommand args)) ;;
  let! input_exists := existsSync inputPath in
  if negb input_exists then throw ("Input file does not exist: " +:+ inputPath)
  else
    let! binary_exists :=
      match ffmpegPath env with
      | Some binary => if JS.truthy binary then existsSync binary else ret false
      | None => ret false
      end in
    if negb binary_exists
    then throw ("FFmpeg binary not found at: " +:+ show_path (ffmpegPath env))
    else
      let! exit := spawn (show_path (ffmpegPath env)) args (Some (5 * 60 * 1000)) in
      match exit with
      | Closed code stdout stderr =>
          if bool_decide (code = Some 0) then
            let! output_exists := existsSync outputPath in
            if output_exists then
              let! size := statSync_size outputPath in
              if size =? 0 then throw EMPTY_OUTPUT else ret tt
            else throw NO_OUTPUT
          else throw (conversion_failed code stderr)
      | SpawnError message => throw (spawn_failed message)
      | Hangs => emit (Kill "SIGKILL") ;; throw TIMEOUT
      end.

(** One [try] block of [convertTsToMp4]: [true] when it reaches [return]. *)
Definition attempt (s : strategy) (inputPath outputPath : string)
    (on_failure : string -> M bool) : M bool :=
  try_catch
    (emit (Console (Trying s inputPath outputPath)) ;;
     runFFmpeg inputPath outputPath (strategy_args s inputPath outputPath) ;;
     emit (Console (Successful s)) ;;
     ret true)
    on_failure.

(** [convertTsToMp4] *)
Definition convertTsToMp4 (inputPath outputPath : string) : M unit :=
  let! done :=
    attempt Copy inputPath outputPath
      (fun message => emit (Console (FailedTrying Copy message)) ;; ret false) in
  if done then ret tt
  else
    let! done :=
      attempt Reencode inputPath outputPath
        (fun message => emit (Console (FailedTrying Reencode message)) ;; ret false) in
    if done then ret tt
    else
      let! done :=
        attempt Basic inputPath outputPath
          (fun message => emit (Console AllFailed) ;; throw (all_failed message)) in
      ret tt.

End WithEnvironment.

End Converter.

(** ** Resolution: [extractTwitchM3U8] *)

Module Resolver.
Import Effects.

Definition is_digit (c : ascii) : bool :=
  let n := N_of_ascii c in ((48 <=? n) && (n <=? 57))%N.

Fixpoint take_digits (s : string) : string :=
  match s with
  | EmptyString => EmptyString
  | String c s' => if is_digit c then String c (take_digits s') else EmptyString
  end.

Fixpoint drop_prefix (p s : string) : option string :=
  match p, s with
  | EmptyString, _ => Some s
  | String a p', String b s' => if Ascii.eqb a b then drop_prefix p' s' else None
  | String _ _, EmptyString => None
  end.

(** [s.match(/marker(\d+)/)], for a literal [marker]: the digits of the
    first place where [marker] is followed by a digit. *)
Fixpoint match_digits_after (marker s : string) : option string :=
  match
    match drop_prefix marker s with
    | Some rest => take_digits rest
    | None => EmptyString
    end
  with
  | String c d => Some (String c d)
  | EmptyString =>
      match s with
      | EmptyString => None
      | String _ s' => match_digits_after marker s'
      end
  end.

(** [s.match(/^\d+$/)] *)
Definition all_digits (s : string) : bool :=
  JS.truthy s && String.eqb (take_digits s) s.

(** Lines 283-297. *)
Definition extract_video_id (twitchUrl : string) : option string :=
  if JS.includes twitchUrl "twitch.tv/videos/" then
    match_digits_after "/videos/" twitchUrl
  else if JS.includes twitchUrl "twitch.tv/" && JS.includes twitchUrl "/v/" then
    match_digits_after "/v/" twitchUrl
  else if all_digits twitchUrl then Some twitchUrl
  else None.

(** Lines 310-313. *)
Definition possibleM3U8Urls (videoId : string) : list string :=
  [ "https://usher.ttvnw.net/vod/" +:+ videoId +:+ ".m3u8";
    "https://usher.ttvnw.net/vod/" +:+ videoId +:+
    "?allow_source=true&allow_audio_only=true&allow_spectre=false" +:+
    "&player=twitchweb&playlist_include_framerate=true" +:+
    "&reassignments_supported=true&supported_codecs=avc1&token=&sig=" ].

Definition NO_ID : string :=
  "Could not extract video ID from Twitch URL. Supported formats: twitch.tv/videos/123456789".

Definition unresolvable (videoId : string) : string :=
  "Could not extract M3U8 URL from Twitch video " +:+ videoId +:+
  ". The video may be private, deleted, or require authentication.".

Section WithEnvironment.

Variable env : environment.

(** The probing loops of lines 315-335 and 357-373. *)
Fixpoint probe (urls : list string) (timeout : option Z) : M (option string) :=
  match urls with
  | [] => ret None
  | m3u8Url :: rest =>
      let! working :=
        try_catch
          (let! status := axios_head env m3u8Url timeout in ret (status =? 200))
          (fun message => ret false) in
      if working then ret (Some m3u8Url) else probe rest timeout
  end.

(** [extractTwitchM3U8] *)
Definition extractTwitchM3U8 (twitchUrl : string) : M string :=
  try_catch
    (if JS.includes twitchUrl ".m3u8" then ret twitchUrl
     else
       match extract_video_id twitchUrl with
       | None => throw NO_ID
       | Some videoId =>
           let! found := probe (possibleM3U8Urls videoId) (Some 10000) in
           match found with
           | Some m3u8Url => ret m3u8Url
           | None =>
               let! scraped :=
                 try_catch
                   (let! pageContent := axios_get env twitchUrl (Some 15000) in
                    probe (regex_m3u8 env pageContent) (Some 5000))
                   (fun scrapeError => ret None) in
               match scraped with
               | Some m3u8Url => ret m3u8Url
               | None => throw (unresolvable videoId)
               end
           end
       end)
    (fun message => throw ("Twitch M3U8 extraction failed: " +:+ message)).

End WithEnvironment.

End Resolver.

(** ** Diagnostics: [diagnoseTsFile] *)

Module Diagnostics.
Import Effects.

Section WithEnvironment.

Variable env : environment.

Definition probe_args (tsPath : string) : list string :=
  ["-v"; "quiet"; "-print_format"; "json"; "-show_format"; "-show_streams"; tsPath].

(** [diagnoseTsFile]: what it reads and prints is left out; the probing
      process is started without a timer, and each of its events resolves. *)
Definition diagnoseTsFile (tsPath : string) : M unit :=
  try_catch
    (let! size := statSync_size tsPath in
     if size =? 0 then ret tt
     else
       match ffmpegPath env with
       | None => throw "The file argument must be of type string. Received null"
       | Some binary =>
           if JS.truthy binary then
             let! exit := Converter.spawn env binary (probe_args tsPath) None in
             ret tt
           else throw "The argument 'file' cannot be empty. Received ''"
       end)
    (fun message => ret tt).

End WithEnvironment.

End Diagnostics.

(** ** [path.join] of Node, POSIX flavour *)

Module Path.

(** [s.split('/')] *)
Fixpoint split_slash (s : string) : list string :=
  match s with
  | EmptyString => [EmptyString]
  | String c s' =>
      if Ascii.eqb c "/"%char then EmptyString :: split_slash s'
      else match split_slash s' with
           | [] => [String c EmptyString]
           | l :: ls => String c l :: ls
           end
  end.

Fixpoint join_slash (parts : list string) : string :=
  match parts with
  | [] => EmptyString
  | [p] => p
  | p :: rest => p +:+ "/" +:+ join_slash rest
  end.

(** The segments kept by normalisation, innermost first: empty and [.]
    segments go, [..] removes the segment before it, and is kept only at
    the start of a relative path. *)
Fixpoint normalize_parts (parts kept : list string) (allowAboveRoot : bool)
  : list string :=
  match parts with
  | [] => kept
  | part :: rest =>
      if String.eqb part EmptyString || String.eqb part "." then
        normalize_parts rest kept allowAboveRoot
      else if String.eqb part ".." then
        match kept with
        | top :: below =>
            if String.eqb top ".." then normalize_parts rest (part :: kept) allowAboveRoot
            else normalize_parts rest below allowAboveRoot
        | [] =>
            if allowAboveRoot then normalize_parts rest [part] allowAboveRoot
            else normalize_parts rest [] allowAboveRoot
        end
      else normalize_parts rest (part :: kept) allowAboveRoot
  end.

Fixpoint ends_with_slash (s : string) : bool :=
  match s with
  | EmptyString => false
  | String c EmptyString => Ascii.eqb c "/"%char
  | String _ s' => ends_with_slash s'
  end.

(** [path.normalize] *)
Definition normalize (path : string) : string :=
  match path with
  | EmptyString => "."
  | _ =>
      let isAbsolute := JS.startsWith path "/" in
      let trailingSeparator := ends_with_slash path in
      let body := join_slash (rev (normalize_parts (split_slash path) [] (negb isAbsolute))) in
      match body with
      | EmptyString =>
          if isAbsolute then "/" else if trailingSeparator then "./" else "."
      | _ =>
          let body := if trailingSeparator then body +:+ "/" else body in
          if isAbsolute then "/" +:+ body else body
      end
  end.

(** [path.join(a, b)] *)
Definition join (a b : string) : string :=
  match a, b with
  | EmptyString, EmptyString => "."
  | EmptyString, _ => normalize b
  | _, EmptyString => normalize a
  | _, _ => normalize (a +:+ "/" +:+ b)
  end.

End Path.

(** ** The routes: [app.post('/download-vod')] and [app.get('/vod/:fileName')] *)

Module Server.
Import Effects.

(** [s.replace(sub, by)] with a string pattern: the first occurrence. *)
Fixpoint replace_first (sub by_ s : string) : string :=
  match Resolver.drop_prefix sub s with
  | Some rest => by_ +:+ rest
  | None =>
      match s with
      | EmptyString => EmptyString
      | String c s' => String c (replace_first sub by_ s')
      end
  end.

(** [s.split('/').pop()] *)
Definition last_part (s : string) : string :=
  List.last (Path.split_slash s) EmptyString.

(** [s.replace(/\.[^/.]+$/, '')]: a final extension is cut off. *)
Definition strip_extension (s : string) : string :=
  let dot := JS.lastIndexOf s "."%char in
  if dot <? 0 then s
  else
    let extension := String.substring (Z.to_nat (dot + 1)) (String.length s) s in
    if JS.truthy extension && negb (JS.includes extension "/")
    then JS.substring0 s dot
    else s.

(** Lines 498-505, for strings. *)
Definition baseFileName (now : Z) (vodUrl fileName : string) : string :=
  if negb (JS.truthy fileName) then
    let urlPart := replace_first ".m3u8" EmptyString (last_part vodUrl) in
    let urlPart := if JS.truthy urlPart then urlPart else "video" in
    urlPart +:+ "_" +:+ pretty now
  else strip_extension fileName.

Definition NO_SPLIT : string := "vodUrl.split is not a function".
Definition NO_REPLACE : string := "baseFileName.replace is not a function".
Definition NO_INCLUDES : string := "vodUrl.includes is not a function".
Definition NO_MATCH : string := "twitchUrl.match is not a function".
Definition NO_SUBSTRING : string := "m3u8Url.substring is not a function".

(** Lines 498-505, for the fields of the body: the base file name, or the
    message of the [TypeError] of [vodUrl.split] or [baseFileName.replace]
    on a value that is not a string. *)
Definition baseFileName_of (now : Z) (vodUrl fileName : JS.value) : string + string :=
  if negb (JS.truthy_value fileName) then
    match vodUrl with
    | JS.Str url => inr (baseFileName now url EmptyString)
    | _ => inl NO_SPLIT
    end
  else
    match fileName with
    | JS.Str name => inr (strip_extension name)
    | _ => inl NO_REPLACE
    end.

(** The body of a 200 answer, without [playback_info] and without the
    [compression_ratio] of [conversion_info]. *)
Record success : Type := {
  message : string;
  path : string;
  filename : string;
  size : Z;
  format : string;
  segments_downloaded : Z;
  method : string;
  conversion_info : option (Z * Z)
}.

Inductive response : Type :=
| Status400 (error : string)
| Status200 (body : success)
| Status500 (error note : string) (possible_causes suggestions : list string).

Definition POSSIBLE_CAUSES : list string :=
  [ "Invalid or expired Twitch video URL";
    "Video is private, deleted, or subscriber-only";
    "Network connectivity issues";
    "Twitch anti-bot protection";
    "FFmpeg conversion error";
    "Insufficient disk space" ].

Definition SUGGESTIONS : list string :=
  [ "Verify the Twitch video URL is public and accessible";
    "Try a different video or check if it requires login";
    "Ensure the video ID is correct in the URL" ].

(** The condition of line 519. *)
Definition is_twitch_page (vodUrl : string) : bool :=
  JS.includes vodUrl "twitch.tv" && negb (JS.includes vodUrl ".m3u8").

Section WithEnvironment.

Variable env : environment.

(** Step 1, lines 517-523. *)
Definition resolve_source (vodUrl : string) : M string :=
  if is_twitch_page vodUrl then Resolver.extractTwitchM3U8 env vodUrl
  else ret vodUrl.

(** Step 3, lines 540-572: the final path, file name, format and
    [conversionSuccess]. *)
Definition convert_or_fall_back (tsPath mp4Path tsFileName mp4FileName : string)
  : M (string * string * string * bool) :=
  try_catch
    (Converter.convertTsToMp4 env tsPath mp4Path ;;
     let! mp4_exists := existsSync mp4Path in
     if mp4_exists then
       try_catch (unlinkSync tsPath) (fun cleanupError => ret tt) ;;
       ret (mp4Path, mp4FileName, "MP4", true)
     else ret (mp4Path, mp4FileName, "MP4", false))
    (fun conversionError => ret (tsPath, tsFileName, "TS", false)).

(** Lines 528-609: after the download, the check of the raw stream file,
    the diagnosis, the conversion and the answer. *)
Definition check_and_convert (downloadedSegments : Z)
    (tsPath mp4Path tsFileName mp4FileName : string) : M success :=
  let! ts_exists := existsSync tsPath in
  if negb ts_exists then throw "TS file was not created"
  else
    let! tsSize := statSync_size tsPath in
    Diagnostics.diagnoseTsFile env tsPath ;;
    let! final := convert_or_fall_back tsPath mp4Path tsFileName mp4FileName in
    let '(finalPath, finalFileName, finalFormat, conversionSuccess) := final in
    let! finalSize := statSync_size finalPath in
    ret {| message :=
             if conversionSuccess
             then "Video downloaded and converted to MP4 successfully"
             else "Video downloaded as TS (MP4 conversion failed but TS works perfectly)";
           path := finalPath;
           filename := finalFileName;
           size := finalSize;
           format := finalFormat;
           segments_downloaded := downloadedSegments;
           method :=
             if conversionSuccess then "HLS download + FFmpeg conversion"
             else "HLS download (conversion fallback)";
           conversion_info :=
             if conversionSuccess then Some (tsSize, finalSize) else None |}.

(** Steps 2 and 3, lines 525-609: from the playlist URL to the answer. *)
Definition download_and_convert (depth : nat) (m3u8Url : string)
    (tsPath mp4Path tsFileName mp4FileName : string) : M success :=
  let! downloadedSegments := Downloader.downloadHLS env depth m3u8Url tsPath in
  check_and_convert downloadedSegments tsPath mp4Path tsFileName mp4FileName.

(** The [try] block, lines 512-609. *)
Definition pipeline (depth : nat) (vodUrl : string)
    (tsPath mp4Path tsFileName mp4FileName : string) : M success :=
  let! m3u8Url := resolve_source vodUrl in
  download_and_convert depth m3u8Url tsPath mp4Path tsFileName mp4FileName.

(** [downloadHLS] of an array: what [axios] makes of a URL that is an
    array is its own affair, and is asked of the network under the array
    as a string; an answer gets as far as line 404, where an array has no
    [substring]. *)
Definition downloadHLS_of_array (items : list JS.value) : M Z :=
  try_catch
    (axios_get env (JS.to_string (JS.Arr items)) None ;;
     throw NO_SUBSTRING)
    (fun message => throw ("HLS download failed: " +:+ message)).

(** The [try] block, lines 512-609, for a [vodUrl] of the body.  A string
    has the methods the block calls.  An array has [includes], and
    neither [match] (lines 288, 292 and 294, inside the [try] of
    [extractTwitchM3U8], after the tests of [includes]) nor [substring].
    Any other value has none of them. *)
Definition try_block (depth : nat) (vodUrl : JS.value)
    (tsPath mp4Path tsFileName mp4FileName : string) : M success :=
  match vodUrl with
  | JS.Str url => pipeline depth url tsPath mp4Path tsFileName mp4FileName
  | JS.Arr items =>
      if JS.array_includes items "twitch.tv" && negb (JS.array_includes items ".m3u8")
      then throw ("Twitch M3U8 extraction failed: " +:+ NO_MATCH)
      else
        let! downloadedSegments := downloadHLS_of_array items in
        check_and_convert downloadedSegments tsPath mp4Path tsFileName mp4FileName
  | _ => throw NO_INCLUDES
  end.

(** The [forEach] of lines 615-624. *)
Fixpoint clean_up (paths : list string) : M unit :=
  match paths with
  | [] => ret tt
  | filePath :: rest =>
      let! present := existsSync filePath in
      (if present then try_catch (unlinkSync filePath) (fun cleanupError => ret tt)
       else ret tt) ;;
      clean_up rest
  end.

Definition tsPath_of (vodUrl fileName : string) : string :=
  Path.join (DOWNLOAD_DIR env) (baseFileName (Date_now env) vodUrl fileName +:+ ".ts").

Definition mp4Path_of (vodUrl fileName : string) : string :=
  Path.join (DOWNLOAD_DIR env) (baseFileName (Date_now env) vodUrl fileName +:+ ".mp4").

(** [app.post('/download-vod')], for the fields [vodUrl] and [fileName]
    of a body that is an object.  What is thrown outside the [try] block
    (lines 498-505) is thrown by the handler: no answer is sent by it. *)
Definition download_vod (depth : nat) (vodUrl fileName : JS.value) : M response :=
  if negb (JS.truthy_value vodUrl) then ret (Status400 "vodUrl is required")
  else
    match baseFileName_of (Date_now env) vodUrl fileName with
    | inl typeError => throw typeError
    | inr base =>
        let tsFileName := base +:+ ".ts" in
        let mp4FileName := base +:+ ".mp4" in
        let tsPath := Path.join (DOWNLOAD_DIR env) tsFileName in
        let mp4Path := Path.join (DOWNLOAD_DIR env) mp4FileName in
        try_catch
          (let! body := try_block depth vodUrl tsPath mp4Path tsFileName mp4FileName in
           ret (Status200 body))
          (fun message =>
             clean_up [tsPath; mp4Path] ;;
             ret (Status500 message "HLS download or MP4 conversion failed"
                            POSSIBLE_CAUSES SUGGESTIONS))
    end.

End WithEnvironment.







End Server.

(** ** The packet check of [diagnoseTsFile], lines 186-210 *)

Module PacketCheck.

(** [Buffer.alloc(188 * 3)] *)
Definition BUFFER_LENGTH : Z := 188 * 3.

(** [fs.readSync(fd, buffer, 0, buffer.length, 0)]: the number of bytes
    read from the start of the file, and the buffer they are read into; the
    rest of the buffer keeps the zeros it was allocated with. *)
Definition bytesRead (content : list byte) : Z :=
  Z.min BUFFER_LENGTH (Z.of_nat (List.length content)).

Definition buffer (content : list byte) : list byte :=
  (take (Z.to_nat BUFFER_LENGTH) content
   ++ replicate (Z.to_nat BUFFER_LENGTH - List.length content) x00%byte)%list.

(** The loop of lines 196-200, [for (let i = 0; i < bytesRead; i += 188)];
    [turns] bounds the number of turns. *)
Fixpoint sync_loop (turns : nat) (i read : Z) (buf : list byte) (validPackets : Z) : Z :=
  match turns with
  | O => validPackets
  | S turns' =>
      if i <? read then
        sync_loop turns' (i + 188) read buf
          (match buf !! Z.to_nat i with
           | Some b => if Byte.eqb b x47%byte then validPackets + 1 else validPackets
           | None => validPackets
           end)
      else validPackets
  end.

(** The buffer holds three packets, so three turns. *)
Definition validPackets (content : list byte) : Z :=
  sync_loop 3 0 (bytesRead content) (buffer content) 0.

(** [Math.floor(bytesRead / 188)] *)
Definition expected (content : list byte) : Z := bytesRead content / 188.

(** The three console lines of lines 204-210. *)
Inductive verdict : Type :=
| NoValidPackets
| SomeInvalid
| ValidStructure.

Definition check (content : list byte) : verdict :=
  if validPackets content =? 0 then NoValidPackets
  else if validPackets content <? expected content then SomeInvalid
  else ValidStructure.

End PacketCheck.

(** ** The notions of the specification *)

Module Spec.
Import Effects.

(** A segment reference in the words of the specification: a line that is
    not empty and does not start with [#]. *)
Definition is_segment_reference (line : string) : bool :=
  JS.truthy line && negb (JS.startsWith line "#").

(** A line that has characters, all of them white space. *)
Definition is_blank_only (line : string) : bool :=
  JS.truthy line && (JS.length (JS.trim line) =? 0).

(** A media playlist: no line carries the stream-info tag. *)
Definition media_playlist (playlist : string) : Prop :=
  Parser.isMasterPlaylist (JS.split_newline playlist) = false.

(** A line the code takes for a segment, in words: it is not empty, does
    not start with [#], and is not made of white space only. *)
Definition is_taken (line : string) : bool :=
  is_segment_reference line && negb (is_blank_only line).

(** The scheme of a URI (RFC 3986): a letter, then letters, digits, [+],
    [-] and [.], up to a colon. *)
Definition is_letter (c : ascii) : bool :=
  let n := N_of_ascii c in
  ((65 <=? n) && (n <=? 90) || (97 <=? n) && (n <=? 122))%N.

Definition is_scheme_char (c : ascii) : bool :=
  is_letter c || Resolver.is_digit c
  || Ascii.eqb c "+" || Ascii.eqb c "-" || Ascii.eqb c ".".

Fixpoint scheme_ends (s : string) : bool :=
  match s with
  | EmptyString => false
  | String c rest =>
      if Ascii.eqb c ":" then true else is_scheme_char c && scheme_ends rest
  end.

(** A reference that is not relative: it starts with a scheme. *)
Definition is_absolute (reference : string) : bool :=
  match reference with
  | EmptyString => false
  | String c rest => is_letter c && scheme_ends rest
  end.

(** The resolution of the specification: a relative reference goes
    after the base URL, another one is kept. *)
Definition resolve_reference (base reference : string) : string :=
  if is_absolute reference then reference else base +:+ reference.

(** A master playlist in which no usable variant line follows a marker. *)
Definition master_without_variant (playlist : string) : Prop :=
  Parser.isMasterPlaylist (JS.split_newline playlist) = true /\
  Parser.first_stream_url (JS.split_newline playlist) = None.

(** The answers of the network to the segment requests of one run of the
    downloader that starts in [w]: request [i] is external call
    [calls w + i]. *)
Definition answers (env : environment) (w : world) (segments : list string)
  : list (reply stream) :=
  imap (fun i segment => http_stream env (calls w + i) segment) segments.

(** A segment succeeded: its request was answered and its stream ended. *)
Definition succeeded (answer : reply stream) : bool :=
  match answer with
  | Resolved {| ending := StreamEnd |} => true
  | _ => false
  end.

(** The bytes a segment's stream delivered before it ended or failed; for
    a segment that succeeded, its body. *)
Definition received (answer : reply stream) : list byte :=
  match answer with
  | Resolved response => concat (chunks response)
  | _ => []
  end.

(** The output the specification describes: the bodies of the segments
    that succeeded, in order. *)
Definition bodies_of_succeeded (replies : list (reply stream)) : list byte :=
  concat (map received (List.filter succeeded replies)).

(** The strategies a run of the converter tried, won with, and gave up, as
    its console lines tell. *)
Definition tried (events : list event) : list strategy :=
  omap (fun e => match e with Console (Trying s _ _) => Some s | _ => None end) events.



(** The order of the strategies. *)
Definition strategies : list strategy := [Copy; Reencode; Basic].

(** An event other than a [HEAD] request; only the resolver sends those. *)
Definition not_head (e : event) : Prop :=
  match e with
  | AxiosHead _ _ => False
  | _ => True
  end.

(** The process ended with exit code 0. *)
Definition exited_with_zero (exit : process_exit) : bool :=
  match exit with
  | Closed (Some 0) _ _ => true
  | _ => false
  end.

(** An event that is not a call without a timeout or timer. *)
Definition bounded (e : event) : Prop :=
  match e with
  | AxiosHead _ None => False
  | AxiosGet _ _ None => False
  | Spawn _ _ None => False
  | _ => True
  end.

(** The bounds given to the network and process calls of a trace, in
    order: [None] for a call without a timeout or timer. *)
Definition call_bounds (events : list event) : list (option Z) :=
  omap (fun e => match e with
                 | AxiosHead _ timeout => Some timeout
                 | AxiosGet _ _ timeout => Some timeout
                 | Spawn _ _ timer => Some timer
                 | Kill _ => None
                 | Console _ => None
                 end) events.




(** The validation of one invocation, in the words of the specification:
    a strategy has failed on an exit code other than 0, on a missing
    output file and on an output file of zero bytes; and also when the
    tool could not be started or was stopped at its bound.  The result
    is the diagnostic detail of the failure, and nothing for a strategy
    that succeeded. *)
Definition failure (outputPath : string) (exit : process_exit)
    (files : gmap string (list byte)) : option string :=
  match exit with
  | Closed (Some 0) _ _ =>
      match files !! outputPath with
      | None => Some Converter.NO_OUTPUT
      | Some [] => Some Converter.EMPTY_OUTPUT
      | Some (_ :: _) => None
      end
  | Closed code _ stderr => Some (Converter.conversion_failed code stderr)
  | SpawnError message => Some (Converter.spawn_failed message)
  | Hangs => Some Converter.TIMEOUT
  end.

(** What comes of trying strategies in order: the strategies that were
    invoked, the one that succeeded, the detail of the last failure, and
    the files the tool left. *)
Record conversion : Type := {
  invoked : list strategy;
  winner : option strategy;
  detail : string;
  disk : gmap string (list byte)
}.


End Spec.

(** ** Inputs of the examples *)

Module Examples.
Import Effects.

Definition NL : string := String "010"%char EmptyString.

Definition CR : string := String "013"%char EmptyString.

(** [lines.join('\n')] *)
Definition unlines (lines : list string) : string := String.concat NL lines.

(** A network that never answers, a tool that cannot be started. *)
Definition offline : environment := {|
  http_head := fun _ _ => Silent;
  http_get := fun _ _ => Silent;
  http_stream := fun _ _ => Silent;
  run_process := fun _ _ _ files => (SpawnError "spawn ENOENT", files);
  regex_m3u8 := fun _ => [];
  ffmpegPath := Some "/bin/ffmpeg";
  DOWNLOAD_DIR := "/app/downloads";
  Date_now := 1700000000000;
  open_error := fun _ => None;
  unsent := fun _ _ => false
|}.

Definition start : world :=
  {| fs := {[ "/bin/ffmpeg" := [x7f]%byte ]}; trace := []; calls := 0 |}.

(** A network on which the first segment request of a run breaks off
    after one chunk, and every later one is answered in full. *)
Definition flaky : environment := {|
  http_head := fun _ _ => Silent;
  http_get := fun _ _ => Silent;
  http_stream := fun n _ =>
    match n with
    | O => Resolved {| chunks := [[x47; x01]%byte]; ending := StreamError "aborted" |}
    | _ => Resolved {| chunks := [[x47]%byte; [x02]%byte]; ending := StreamEnd |}
    end;
  run_process := fun _ _ _ files => (SpawnError "spawn ENOENT", files);
  regex_m3u8 := fun _ => [];
  ffmpegPath := Some "/bin/ffmpeg";
  DOWNLOAD_DIR := "/app/downloads";
  Date_now := 1700000000000;
  open_error := fun _ => None;
  unsent := fun _ _ => false
|}.

(** A tool that cannot be started the first time it is called, and that
    afterwards writes one byte to its last argument and exits with 0. *)
Definition unstartable_once : environment := {|
  http_head := fun _ _ => Silent;
  http_get := fun _ _ => Silent;
  http_stream := fun _ _ => Silent;
  run_process := fun n _ args files =>
    match n with
    | O => (SpawnError "spawn EAGAIN", files)
    | _ => (Closed (Some 0) EmptyString EmptyString,
            <[List.last args EmptyString := [x00]%byte]> files)
    end;
  regex_m3u8 := fun _ => [];
  ffmpegPath := Some "/bin/ffmpeg";
  DOWNLOAD_DIR := "/app/downloads";
  Date_now := 1700000000000;
  open_error := fun _ => None;
  unsent := fun _ _ => false
|}.


(** A state in which a raw stream has been downloaded. *)
Definition downloaded : world :=
  {| fs := {[ "/bin/ffmpeg" := [x7f]%byte; "/app/downloads/v.ts" := [x47]%byte ]};
     trace := []; calls := 0 |}.

(** A network that serves the media playlist below and breaks every
    segment stream off after one byte. *)
Definition lossy : environment := {|
  http_head := fun _ _ => Silent;
  http_get := fun _ _ =>
    Resolved (unlines [ "#EXTM3U"; "#EXTINF:10,"; "seg0.ts"; "#EXTINF:10,"; "seg1.ts" ]);
  http_stream := fun _ _ =>
    Resolved {| chunks := [[x47]%byte]; ending := StreamError "aborted" |};
  run_process := fun _ _ _ files => (SpawnError "spawn ENOENT", files);
  regex_m3u8 := fun _ => [];
  ffmpegPath := Some "/bin/ffmpeg";
  DOWNLOAD_DIR := "/app/downloads";
  Date_now := 1700000000000;
  open_error := fun _ => None;
  unsent := fun _ _ => false
|}.

(** A network that serves a media playlist of two segments and answers
    every segment request in full, a tool that writes one byte to its
    last argument, and a download directory without the directory
    [sub]: no file can be opened under it. *)
Definition without_sub : environment := {|
  http_head := fun _ _ => Silent;
  http_get := fun _ _ =>
    Resolved (unlines [ "#EXTM3U"; "#EXTINF:10,"; "seg0.ts"; "#EXTINF:10,"; "seg1.ts" ]);
  http_stream := fun _ _ =>
    Resolved {| chunks := [[x47]%byte]; ending := StreamEnd |};
  run_process := fun _ _ args files =>
    (Closed (Some 0) EmptyString EmptyString,
     <[List.last args EmptyString := [x00]%byte]> files);
  regex_m3u8 := fun _ => [];
  ffmpegPath := Some "/bin/ffmpeg";
  DOWNLOAD_DIR := "/app/downloads";
  Date_now := 1700000000000;
  open_error := fun path =>
    if JS.startsWith path "/app/downloads/sub/"
    then Some ("ENOENT: no such file or directory, open '" +:+ path +:+ "'")
    else None;
  unsent := fun _ _ => false
|}.

(** A network that never answers and a tool that never ends. *)
Definition stalled : environment := {|
  http_head := fun _ _ => Silent;
  http_get := fun _ _ => Silent;
  http_stream := fun _ _ => Silent;
  run_process := fun _ _ _ files => (Hangs, files);
  regex_m3u8 := fun _ => [];
  ffmpegPath := Some "/bin/ffmpeg";
  DOWNLOAD_DIR := "/app/downloads";
  Date_now := 1700000000000;
  open_error := fun _ => None;
  unsent := fun _ _ => false
|}.



(** A state after one external call. *)
Definition resumed : world :=
  {| fs := {[ "/bin/ffmpeg" := [x7f]%byte ]}; trace := []; calls := 1 |}.

Definition two_segments : list string :=
  [ "https://host/vod/seg0.ts"; "https://host/vod/seg1.ts" ].

(** A media playlist of three segments, one of them absolute and one a
    repetition. *)
Definition media_playlist : string :=
  unlines [ "#EXTM3U"; "#EXT-X-TARGETDURATION:10";
            "#EXTINF:10,"; "seg0.ts";
            "#EXTINF:10,"; "https://cdn.example/seg1.ts";
            "#EXTINF:10,"; "seg0.ts";
            "#EXT-X-ENDLIST"; EmptyString ].

(** A media playlist whose segment is a relative reference that starts
    with the letters of [http]. *)
Definition playlist_of_httpx : string :=
  unlines [ "#EXTM3U"; "#EXTINF:10,"; "httpx.ts" ].

(** A media playlist with lines that end in a carriage return, one of
    them blank. *)
Definition playlist_with_returns : string :=
  unlines [ "#EXTM3U" +:+ CR; "#EXTINF:10," +:+ CR; "seg0.ts" +:+ CR; CR; EmptyString ].

(** A master playlist with a comment between the tag and the variant. *)
Definition master_with_comment : string :=
  unlines [ "#EXTM3U"; "#EXT-X-STREAM-INF:BANDWIDTH=1280000"; "# 720p";
            "720p/index.m3u8" ].

(** A master playlist whose only tag is on the last line. *)
Definition master_without_lines : string :=
  unlines [ "#EXTM3U"; "#EXT-X-STREAM-INF:BANDWIDTH=1280000"; EmptyString ].

End Examples.

(** ** Further notions and inputs *)

Module More.
Import Effects.

(** The state after the request for the playlist at [m3u8Url]. *)
Definition requested (m3u8Url : string) (w : world) : world :=
  {| fs := fs w; trace := trace w ++ [AxiosGet m3u8Url false None];
     calls := S (calls w) |}.

(** The binary is there: [ffmpegPath] is a non-empty path of a file. *)
Definition binary_found (env : environment) (w : world) : bool :=
  match ffmpegPath env with
  | Some binary => JS.truthy binary && bool_decide (is_Some (fs w !! binary))
  | None => false
  end.

(** The conditions under which a run of the tool succeeds: the input file
    and the binary are there, the process ends with exit code 0, and it
    leaves an output file with at least one byte. *)
Definition tool_succeeds (env : environment) (inputPath outputPath : string)
    (args : list string) (w : world) : Prop :=
  is_Some (fs w !! inputPath)
  /\ exists binary,
       ffmpegPath env = Some binary /\ JS.truthy binary = true
       /\ is_Some (fs w !! binary)
       /\ Spec.exited_with_zero
            (fst (run_process env (calls w) binary args (fs w))) = true
       /\ exists b content,
            snd (run_process env (calls w) binary args (fs w)) !! outputPath
            = Some (b :: content).



(** 1 when the byte of the file at offset [i] is the sync byte 0x47. *)
Definition sync_at (content : list byte) (i : nat) : Z :=
  match content !! i with
  | Some b => if Byte.eqb b x47%byte then 1 else 0
  | None => 0
  end.

(** A master playlist whose first stream-info line is followed by a
    comment, and whose second one is followed by a variant. *)
Definition master_of_two : string :=
  Examples.unlines
    [ "#EXTM3U"; "#EXT-X-STREAM-INF:BANDWIDTH=2560000"; "# 1080p is not there";
      "#EXT-X-STREAM-INF:BANDWIDTH=1280000"; "720p/index.m3u8";
      "#EXT-X-STREAM-INF:BANDWIDTH=640000"; "360p/index.m3u8" ].

(** A network that answers the first request with a master playlist and
    every later one with a playlist without segments. *)
Definition nested : environment := {|
  http_head := fun _ _ => Silent;
  http_get := fun n _ =>
    match n with
    | O => Resolved master_of_two
    | _ => Resolved (Examples.unlines ["#EXTM3U"; "#EXT-X-ENDLIST"])
    end;
  http_stream := fun _ _ => Silent;
  run_process := fun _ _ _ files => (SpawnError "spawn ENOENT", files);
  regex_m3u8 := fun _ => [];
  ffmpegPath := Some "/bin/ffmpeg";
  DOWNLOAD_DIR := "/app/downloads";
  Date_now := 1700000000000;
  open_error := fun _ => None;
  unsent := fun _ _ => false
|}.

(** A network on which every playlist is a master playlist whose variant
    is [loop.m3u8]. *)
Definition looping : environment := {|
  http_head := fun _ _ => Silent;
  http_get := fun _ _ =>
    Resolved (Examples.unlines ["#EXTM3U"; "#EXT-X-STREAM-INF:BANDWIDTH=1"; "loop.m3u8"]);
  http_stream := fun _ _ => Silent;
  run_process := fun _ _ _ files => (SpawnError "spawn ENOENT", files);
  regex_m3u8 := fun _ => [];
  ffmpegPath := Some "/bin/ffmpeg";
  DOWNLOAD_DIR := "/app/downloads";
  Date_now := 1700000000000;
  open_error := fun _ => None;
  unsent := fun _ _ => false
|}.

(** A tool that always writes one byte to the MP4 path and exits with 0. *)
Definition converting : environment := {|
  http_head := fun _ _ => Silent;
  http_get := fun _ _ => Silent;
  http_stream := fun _ _ => Silent;
  run_process := fun _ _ _ files =>
    (Closed (Some 0) EmptyString EmptyString,
     <["/app/downloads/v.mp4" := [x00]%byte]> files);
  regex_m3u8 := fun _ => [];
  ffmpegPath := Some "/bin/ffmpeg";
  DOWNLOAD_DIR := "/app/downloads";
  Date_now := 1700000000000;
  open_error := fun _ => None;
  unsent := fun _ _ => false
|}.

End More.

(** * Properties *)

(** ** The parser *)

Module ParserFacts.
Import Parser.

Lemma prefix_char (c a : ascii) (s : string) :
  String.prefix (String c EmptyString) (String a s) = Ascii.eqb a c.
Proof.
  simpl. destruct (ascii_dec c a) as [->|Hne].
  - rewrite Ascii.eqb_refl. destruct s; reflexivity.
  - symmetry. apply Ascii.eqb_neq. congruence.
Qed.

Lemma lastIndexOf_absent (c : ascii) (s : string) :
  JS.includes s (String c EmptyString) = false ->
  forall i found, JS.lastIndexOf_from i s c found = found.
Proof.
  induction s as [|a s IH]; intros Hs i found; [reflexivity|].
  cbn [JS.includes] in Hs. rewrite prefix_char in Hs.
  apply orb_false_iff in Hs as [Ha Hs].
  cbn [JS.lastIndexOf_from]. rewrite Ha. auto.
Qed.

Lemma lastIndexOf_last (c : ascii) (file : string) :
  JS.includes file (String c EmptyString) = false ->
  forall dir i found,
    JS.lastIndexOf_from i (dir +:+ String c file) c found
    = i + Z.of_nat (String.length dir).
Proof.
  intros Hfile. induction dir as [|a dir IH]; intros i found.
  - change (EmptyString +:+ String c file) with (String c file).
    cbn [JS.lastIndexOf_from String.length].
    rewrite Ascii.eqb_refl, lastIndexOf_absent by assumption. lia.
  - change (String a dir +:+ String c file) with (String a (dir +:+ String c file)).
    cbn [JS.lastIndexOf_from String.length]. rewrite IH. lia.
Qed.

Lemma substring_through (c : ascii) (rest : string) (dir : string) :
  String.substring 0 (S (String.length dir)) (dir +:+ String c rest)
  = dir +:+ String c EmptyString.
Proof.
  induction dir as [|a dir IH].
  - cbn. destruct rest; reflexivity.
  - change (String a dir +:+ String c rest) with (String a (dir +:+ String c rest)).
    change (String a dir +:+ String c EmptyString)
      with (String a (dir +:+ String c EmptyString)).
    cbn [String.length String.substring]. f_equal. exact IH.
Qed.

(** The base URL is the playlist URL cut after its last slash. *)
Lemma baseUrl_after_last_slash (dir file : string) :
  JS.includes file "/" = false ->
  baseUrl (dir +:+ "/" +:+ file) = dir +:+ "/".
Proof.
  intros Hfile. unfold baseUrl, JS.lastIndexOf, JS.substring0.
  change ("/" +:+ file) with (String "/"%char file).
  rewrite (lastIndexOf_last "/"%char file Hfile).
  replace (Z.to_nat (0 + Z.of_nat (String.length dir) + 1))
    with (S (String.length dir)) by lia.
  apply substring_through.
Qed.

(** The loop that pushes is a filter followed by a map. *)
Lemma collect_segments_spec (base : string) (lines segments : list string) :
  collect_segments base lines segments
  = (segments ++ map (resolve base) (List.filter is_segment_line lines))%list.
Proof.
  revert segments. induction lines as [|line lines IH]; intros segments; cbn.
  - symmetry. apply app_nil_r.
  - destruct (is_segment_line line); rewrite IH; cbn; [|reflexivity].
    rewrite <- app_assoc. reflexivity.
Qed.

(** The guard of line 426, in words. *)
Lemma is_segment_line_taken (line : string) :
  is_segment_line line = Spec.is_taken line.
Proof.
  unfold Spec.is_taken, Spec.is_blank_only, is_segment_line, Spec.is_segment_reference,
    JS.length.
  destruct (JS.truthy line); cbn; [|reflexivity].
  destruct (negb (JS.startsWith line "#")); cbn; [|reflexivity].
  destruct (Z.eqb_spec (Z.of_nat (String.length (JS.trim line))) 0) as [->|Hlength];
    [reflexivity|].
  cbn. apply Z.ltb_lt. lia.
Qed.

(** A line of white space only is not taken for a segment. *)
Lemma blank_only_line_is_skipped (line : string) :
  Spec.is_blank_only line = true -> is_segment_line line = false.
Proof.
  intros Hblank. rewrite is_segment_line_taken. unfold Spec.is_taken.
  rewrite Hblank. apply andb_false_r.
Qed.

Lemma filter_segment_lines (lines : list string) :
  List.filter is_segment_line lines = List.filter Spec.is_taken lines.
Proof. apply List.filter_ext. exact is_segment_line_taken. Qed.

Lemma media_branch_segments (base : string) (lines : list string) :
  List.filter is_segment_line lines <> [] ->
  media_branch base lines = Media (map (resolve base) (List.filter is_segment_line lines)).
Proof.
  intros Hne. unfold media_branch. rewrite collect_segments_spec. cbn.
  destruct (List.filter is_segment_line lines) as [|l ls]; [congruence|].
  reflexivity.
Qed.

Lemma media_branch_empty (base : string) (lines : list string) :
  List.filter is_segment_line lines = [] ->
  media_branch base lines = ParseError NO_SEGMENTS.
Proof.
  intros He. unfold media_branch. rewrite collect_segments_spec, He. reflexivity.
Qed.

Lemma filter_nothing {A} (f : A -> bool) (l : list A) :
  (forall x, In x l -> f x = false) -> List.filter f l = [].
Proof.
  induction l as [|x l IH]; intros H; [reflexivity|].
  cbn. rewrite (H x) by (left; reflexivity).
  apply IH. intros y Hy. apply H. right. exact Hy.
Qed.

(** C7, as the code has it.  Of a media playlist the parser takes the
    lines that are not empty, do not start with [#] and are not made of
    white space only, in their order and with their duplicates: one
    segment URL for each of them, which is the line itself when it starts
    with the four letters [http], and the line put after the base URL
    otherwise; the base URL is the playlist URL cut after its last
    slash.  With at least one such line this list is what the parser
    hands to the downloader, and with none the parser fails. *)
Theorem media_playlist_segments (m3u8Url playlist : string) :
  Spec.media_playlist playlist ->
  let taken := List.filter Spec.is_taken (JS.split_newline playlist) in
  let url_of line :=
    if JS.startsWith line "http" then line else baseUrl m3u8Url +:+ line in
  (taken <> [] -> parse_playlist m3u8Url playlist = Media (map url_of taken))
  /\ (taken = [] -> parse_playlist m3u8Url playlist = ParseError NO_SEGMENTS)
  /\ (forall segments,
        parse_playlist m3u8Url playlist = Media segments ->
        List.length segments = List.length taken
        /\ forall i segment,
             segments !! i = Some segment ->
             exists line, taken !! i = Some line /\ segment = url_of line)
  /\ (forall dir file, m3u8Url = dir +:+ "/" +:+ file -> JS.includes file "/" = false ->
      baseUrl m3u8Url = dir +:+ "/").
Proof.
  intros Hmedia taken url_of. unfold Spec.media_playlist in Hmedia.
  assert (Hsome : taken <> [] -> parse_playlist m3u8Url playlist = Media (map url_of taken)).
  { intros Htaken. unfold parse_playlist. rewrite Hmedia.
    rewrite media_branch_segments; rewrite filter_segment_lines; [reflexivity|exact Htaken]. }
  assert (Hnone : taken = [] -> parse_playlist m3u8Url playlist = ParseError NO_SEGMENTS).
  { intros Htaken. unfold parse_playlist. rewrite Hmedia.
    apply media_branch_empty. rewrite filter_segment_lines. exact Htaken. }
  split; [exact Hsome|]. split; [exact Hnone|]. split.
  - intros segments Hparse.
    destruct taken as [|line rest] eqn:Htaken.
    + rewrite Hnone in Hparse by reflexivity. discriminate Hparse.
    + rewrite Hsome in Hparse by discriminate.
      assert (Hsegments : segments = map url_of (line :: rest)) by congruence.
      rewrite Hsegments. split; [apply length_map|].
      intros i segment Hi. rewrite list_lookup_fmap in Hi.
      destruct ((line :: rest) !! i) as [found|]; [|discriminate Hi].
      injection Hi as <-. eauto.
  - intros dir file -> Hfile. apply baseUrl_after_last_slash. exact Hfile.
Qed.

Lemma media_playlist_segments_witness :
  parse_playlist "https://host/vod/index.m3u8" Examples.media_playlist
  = Media [ "https://host/vod/seg0.ts"; "https://cdn.example/seg1.ts";
            "https://host/vod/seg0.ts" ].
Proof.
  destruct (media_playlist_segments "https://host/vod/index.m3u8"
              Examples.media_playlist eq_refl) as (Hparse & _).
  rewrite Hparse by (vm_compute; discriminate). reflexivity.
Defined.

(** C7, as it is stated, fails twice.  A relative reference that starts
    with the letters [http] is not resolved against the base URL; and a
    line of white space only, such as the carriage return of a blank line
    in a playlist with CRLF line ends, is among the lines that are not
    empty and do not start with [#], and no segment is made of it. *)
Lemma relative_reference_is_not_resolved :
  ~ (forall m3u8Url playlist,
       Spec.media_playlist playlist ->
       List.filter Spec.is_segment_reference (JS.split_newline playlist) <> [] ->
       parse_playlist m3u8Url playlist
       = Media (map (Spec.resolve_reference (baseUrl m3u8Url))
                  (List.filter Spec.is_segment_reference (JS.split_newline playlist))))
  /\ ~ (forall m3u8Url playlist segments,
          Spec.media_playlist playlist ->
          parse_playlist m3u8Url playlist = Media segments ->
          List.length segments
          = List.length (List.filter Spec.is_segment_reference
                           (JS.split_newline playlist))).
Proof.
  split; intros claim.
  - specialize (claim "https://host/vod/index.m3u8" Examples.playlist_of_httpx
                  eq_refl).
    vm_compute in claim. specialize (claim ltac:(discriminate)).
    discriminate claim.
  - specialize (claim "https://host/vod/index.m3u8" Examples.playlist_with_returns
                  _ eq_refl eq_refl).
    vm_compute in claim. discriminate claim.
Qed.

(** C2, as the code has it.  A master playlist in which no usable variant
    line follows a marker, and which has no segment line either, fails
    with the parser's one error, "No segments found in playlist". *)
Theorem master_without_variant_fails (m3u8Url playlist : string) :
  Spec.master_without_variant playlist ->
  (forall line, In line (JS.split_newline playlist) -> is_segment_line line = false) ->
  parse_playlist m3u8Url playlist = ParseError NO_SEGMENTS.
Proof.
  intros [Hmaster Hnone] Hlines. unfold parse_playlist.
  rewrite Hmaster, Hnone. apply media_branch_empty, filter_nothing, Hlines.
Qed.

Lemma master_without_variant_fails_witness :
  Spec.master_without_variant Examples.master_without_lines /\
  parse_playlist "https://host/vod/master.m3u8" Examples.master_without_lines
  = ParseError "No segments found in playlist".
Proof.
  assert (Hmaster : Spec.master_without_variant Examples.master_without_lines)
    by (split; reflexivity).
  split; [exact Hmaster|].
  apply (master_without_variant_fails _ _ Hmaster).
  intros line Hin. cbn in Hin.
  repeat (destruct Hin as [<-|Hin]; [reflexivity|]). destruct Hin.
Defined.

(** C2, as it is stated, fails: with a comment between the tag and the
    variant line no usable variant follows the marker, and the parser
    does not fail but takes the variant line for a segment. *)
Lemma master_without_variant_is_parsed :
  ~ (forall m3u8Url playlist,
       Spec.master_without_variant playlist ->
       exists message, parse_playlist m3u8Url playlist = ParseError message).
Proof.
  intros claim.
  destruct (claim "https://host/vod/master.m3u8" Examples.master_with_comment)
    as [message Hfails]; [split; reflexivity|].
  vm_compute in Hfails. discriminate Hfails.
Qed.

End ParserFacts.

(** ** The downloader *)

Module DownloaderFacts.
Import Effects Downloader.

Section WithEnvironment.

Variable env : environment.

(** Writing chunks appends their bytes, in order, to the output file. *)
Lemma write_chunks_spec (outputPath : string) (data : list (list byte)) :
  forall (w : world) (content : list byte),
    fs w !! outputPath = Some content ->
    exists w',
      write_chunks outputPath data w = (Return tt, w')
      /\ fs w' !! outputPath = Some (content ++ concat data)%list
      /\ calls w' = calls w.
Proof.
  induction data as [|chunk data IH]; intros w content Hfile.
  - exists w. cbn. rewrite app_nil_r. auto.
  - cbn [write_chunks]. unfold bind at 1. unfold write_chunk, bind, get_fs, put_fs.
    cbn. rewrite Hfile. cbn.
    destruct (IH {| fs := <[outputPath := (content ++ chunk)%list]> (fs w);
                    trace := trace w; calls := calls w |} (content ++ chunk)%list)
      as (w' & Hrun & Hfs & Hcalls); [apply lookup_insert_eq|].
    rewrite Hrun. exists w'. split; [reflexivity|]. split.
    + rewrite Hfs, <- app_assoc. reflexivity.
    + exact Hcalls.
Qed.

(** One turn of the loop: the counter goes up when the segment succeeded,
    and the file gets what the stream delivered. *)
Lemma segment_attempt_spec (outputPath segment : string) (downloadedSegments : Z)
    (w : world) (content : list byte) :
  fs w !! outputPath = Some content ->
  let answer := http_stream env (calls w) segment in
  exists w',
    try_catch
      (let! segmentResponse := axios_get_stream env segment (Some 30000) in
       pipe outputPath segmentResponse ;;
       ret (downloadedSegments + 1))
      (fun segmentError => ret downloadedSegments) w
    = (Return (if Spec.succeeded answer then downloadedSegments + 1
               else downloadedSegments), w')
    /\ fs w' !! outputPath = Some (content ++ Spec.received answer)%list
    /\ calls w' = S (calls w).
Proof.
  intros Hfile answer.
  unfold try_catch, axios_get_stream, bind, emit, next_call. cbn.
  fold answer. destruct answer as [[data fin]| |]; cbn.
  - unfold pipe, bind. cbn.
    edestruct (write_chunks_spec outputPath data) as (w' & Hrun & Hfs & Hcalls);
      [|rewrite Hrun].
    + cbn. exact Hfile.
    + destruct fin; cbn; exists w'; cbn in Hcalls; auto.
  - eexists. split; [reflexivity|]. cbn. rewrite app_nil_r. auto.
  - eexists. split; [reflexivity|]. cbn. rewrite app_nil_r. auto.
Qed.

Lemma answers_cons (w : world) (segment : string) (rest : list string) :
  forall w', calls w' = S (calls w) ->
  Spec.answers env w (segment :: rest)
  = http_stream env (calls w) segment :: Spec.answers env w' rest.
Proof.
  intros w' Hcalls. unfold Spec.answers. cbn. rewrite Nat.add_0_r. f_equal.
  apply imap_ext. intros i x _. cbn. rewrite Hcalls. f_equal. lia.
Qed.

(** The loop: the count of the segments that succeeded, and the file. *)
Lemma segment_loop_spec (outputPath : string) (segments : list string) :
  forall (downloadedSegments : Z) (w : world) (content : list byte),
    fs w !! outputPath = Some content ->
    exists w',
      segment_loop env outputPath segments downloadedSegments w
      = (Return (downloadedSegments +
                 Z.of_nat (List.length (List.filter Spec.succeeded
                                          (Spec.answers env w segments)))), w')
      /\ fs w' !! outputPath
         = Some (content ++ concat (map Spec.received (Spec.answers env w segments)))%list.
Proof.
  induction segments as [|segment rest IH]; intros d w content Hfile.
  - exists w. cbn. rewrite Z.add_0_r, app_nil_r. auto.
  - cbn [segment_loop]. unfold bind at 1.
    destruct (segment_attempt_spec outputPath segment d w content Hfile)
      as (w1 & Hrun & Hfs & Hcalls).
    rewrite Hrun.
    destruct (IH (if Spec.succeeded (http_stream env (calls w) segment)
                  then d + 1 else d) w1 _ Hfs) as (w' & Hloop & Hfs').
    exists w'. rewrite Hloop, Hfs', (answers_cons w segment rest w1 Hcalls).
    cbn [List.filter map concat].
    split.
    + f_equal. f_equal.
      destruct (Spec.succeeded (http_stream env (calls w) segment)); cbn [List.length]; lia.
    + rewrite <- app_assoc. reflexivity.
Qed.

Lemma download_segments_spec (segments : list string) (outputPath : string) (w : world) :
  open_error env outputPath = None ->
  let replies := Spec.answers env w segments in
  let n := Z.of_nat (List.length (List.filter Spec.succeeded replies)) in
  exists w',
    download_segments env segments outputPath w
    = (if n =? 0 then Throw NO_DOWNLOADS else Return n, w')
    /\ fs w' !! outputPath = Some (concat (map Spec.received replies)).
Proof.
  intros Hopen replies n. unfold download_segments, createWriteStream.
  rewrite Hopen. cbv [bind get_fs put_fs ret]. cbn [fs trace calls].
  edestruct (segment_loop_spec outputPath segments 0) as (w' & Hloop & Hfs);
    [|rewrite Hloop].
  - cbn. apply lookup_insert_eq.
  - cbn in Hfs. fold replies in Hfs. change (Spec.answers env _ segments) with replies.
    rewrite Z.add_0_l. fold n. exists w'. split; [|exact Hfs].
    destruct (n =? 0); reflexivity.
Qed.

(** The loop when the output file could not be opened: nothing is
    written; the process ends at the first request that is sent, and when
    none is, the error of the file is thrown. *)
Lemma segment_loop_unopened_spec (message : string) (segments : list string) :
  forall w : world,
    exists k,
      (k <= List.length segments)%nat
      /\ trace (snd (segment_loop_unopened env message segments w))
         = (trace w ++ map (fun url => AxiosGet url true (Some 30000))
                         (take k segments))%list
      /\ fs (snd (segment_loop_unopened env message segments w)) = fs w
      /\ ((fst (segment_loop_unopened env message segments w) = Crash message
           /\ (1 <= k)%nat)
          \/ (fst (segment_loop_unopened env message segments w) = Throw message
              /\ k = List.length segments
              /\ forall i segment, segments !! i = Some segment ->
                   unsent env (calls w + i) segment = true)).
Proof.
  induction segments as [|segment rest IH]; intros w.
  - exists O. cbn. rewrite app_nil_r. split; [lia|]. split; [reflexivity|].
    split; [reflexivity|]. right. split; [reflexivity|]. split; [reflexivity|].
    intros i segment Hi. discriminate Hi.
  - cbn [segment_loop_unopened]. cbv [bind emit next_call logged crash].
    cbn [fs trace calls].
    assert (Hdies : forall w1 : world,
              trace w1 = (trace w ++ [AxiosGet segment true (Some 30000)])%list ->
              fs w1 = fs w ->
              exists k,
                (k <= List.length (segment :: rest))%nat
                /\ trace (snd (@Crash Z message, w1))
                   = (trace w ++ map (fun url => AxiosGet url true (Some 30000))
                                   (take k (segment :: rest)))%list
                /\ fs (snd (@Crash Z message, w1)) = fs w
                /\ ((fst (@Crash Z message, w1) = Crash message /\ (1 <= k)%nat)
                    \/ (fst (@Crash Z message, w1) = Throw message
                        /\ k = List.length (segment :: rest)
                        /\ forall i s, (segment :: rest) !! i = Some s ->
                             unsent env (calls w + i) s = true))).
    { intros w1 Htrace Hfs. exists 1%nat. cbn [List.length take map fst snd].
      split; [lia|]. split; [exact Htrace|]. split; [exact Hfs|].
      left. split; [reflexivity|lia]. }
    destruct (http_stream env (calls w) segment) as [response|rejection|] eqn:Hanswer;
      [apply Hdies; reflexivity| |apply Hdies; reflexivity].
    destruct (unsent env (calls w) segment) eqn:Hunsent; [|apply Hdies; reflexivity].
    match goal with
    | |- context [segment_loop_unopened env message rest ?w1] =>
        destruct (IH w1) as (k & Hk & Htrace & Hfs & Hresult)
    end.
    cbn [fs trace calls] in Htrace, Hfs, Hresult.
    exists (S k). cbn [List.length take map].
    split; [lia|]. split; [rewrite Htrace, <- app_assoc; reflexivity|].
    split; [exact Hfs|].
    destruct Hresult as [[Hcrash Hpos]|(Hthrow & Hall & Hunsents)].
    + left. split; [exact Hcrash|lia].
    + right. split; [exact Hthrow|]. split; [lia|].
      intros [|i] s Hi.
      * cbn in Hi. injection Hi as <-. rewrite Nat.add_0_r. exact Hunsent.
      * cbn in Hi. replace (calls w + S i)%nat with (S (calls w) + i)%nat by lia.
        apply Hunsents. exact Hi.
Qed.

Lemma download_segments_unopened (segments : list string) (outputPath : string)
    (w : world) (message : string) :
  open_error env outputPath = Some message ->
  download_segments env segments outputPath w
  = segment_loop_unopened env message segments w.
Proof.
  intros Hopen. unfold download_segments, createWriteStream. rewrite Hopen.
  reflexivity.
Qed.

Lemma received_of_succeeded (replies : list (reply stream)) :
  (forall answer, In answer replies ->
     Spec.succeeded answer = false -> Spec.received answer = []) ->
  concat (map Spec.received replies) = Spec.bodies_of_succeeded replies.
Proof.
  unfold Spec.bodies_of_succeeded.
  induction replies as [|answer replies IH]; intros H; [reflexivity|].
  cbn [map concat List.filter]. rewrite IH by (intros a Ha; apply H; right; exact Ha).
  destruct (Spec.succeeded answer) eqn:Hs; [reflexivity|].
  rewrite (H answer) by (auto; left; reflexivity). reflexivity.
Qed.

(** C1, as the code has it.  The output file holds, in the order of the
    segment list, what the stream of each segment delivered: the whole
    body of a segment that succeeded, nothing for a segment whose request
    was rejected or timed out, and the chunks that arrived before the
    error for a segment whose stream failed.  When no failed stream had
    delivered anything, this is the concatenation of the bodies of the
    segments that succeeded.  This is so whenever the output file could
    be opened; when it could not, nothing is written and what was at the
    output path stays as it was. *)
Theorem output_is_what_streams_delivered
    (segments : list string) (outputPath : string) (w : world) :
  let replies := Spec.answers env w segments in
  let output := fs (snd (download_segments env segments outputPath w)) !! outputPath in
  match open_error env outputPath with
  | None =>
      output = Some (concat (map Spec.received replies))
      /\ ((forall answer, In answer replies ->
              Spec.succeeded answer = false -> Spec.received answer = []) ->
           output = Some (Spec.bodies_of_succeeded replies))
  | Some _ => output = fs w !! outputPath
  end.
Proof.
  intros replies output.
  destruct (open_error env outputPath) as [message|] eqn:Hopen.
  - unfold output. rewrite (download_segments_unopened _ _ _ _ Hopen).
    destruct (segment_loop_unopened_spec message segments w) as (k & _ & _ & Hfs & _).
    rewrite Hfs. reflexivity.
  - destruct (download_segments_spec segments outputPath w Hopen) as (w' & Hrun & Hfs).
    assert (Hout : output = Some (concat (map Spec.received replies))).
    { unfold output. rewrite Hrun. exact Hfs. }
    split; [exact Hout|].
    intros Hclean. rewrite Hout, (received_of_succeeded replies Hclean). reflexivity.
Qed.


End WithEnvironment.

Lemma output_is_what_streams_delivered_witness :
  fs (snd (download_segments Examples.flaky Examples.two_segments
             "/app/downloads/out.ts" Examples.resumed)) !! "/app/downloads/out.ts"
  = Some (Spec.bodies_of_succeeded
            (Spec.answers Examples.flaky Examples.resumed Examples.two_segments)).
Proof.
  apply (output_is_what_streams_delivered Examples.flaky Examples.two_segments
           "/app/downloads/out.ts" Examples.resumed).
  intros answer Hin Hfailed. vm_compute in Hin.
  destruct Hin as [<-|[<-|[]]]; discriminate Hfailed.
Defined.

(** C1, as it is stated, fails: a stream that breaks off after a chunk has
    left that chunk in the file. *)
Lemma failed_stream_leaves_bytes :
  ~ (forall env segments outputPath w,
       fs (snd (download_segments env segments outputPath w)) !! outputPath
       = Some (Spec.bodies_of_succeeded (Spec.answers env w segments))).
Proof.
  intros claim.
  specialize (claim Examples.flaky Examples.two_segments "/app/downloads/out.ts"
                Examples.start).
  vm_compute in claim. discriminate claim.
Qed.


End DownloaderFacts.

(** ** What a computation adds to the trace, and whether it settles *)

Module Traces.
Import Effects.

(** Every run of [m] extends the trace, by events that satisfy [P]. *)
Definition emits {A} (P : event -> Prop) (m : M A) : Prop :=
  forall w, exists events,
    trace (snd (m w)) = (trace w ++ events)%list /\ Forall P events.

(** No run of [m] is left without an outcome. *)
Definition settles {A} (m : M A) : Prop :=
  forall w, fst (m w) <> Diverge.

(** No run of [m] ends the process. *)
Definition survives {A} (m : M A) : Prop :=
  forall w message, fst (m w) <> Crash message.

Section Emits.

Context {A B : Type} (P : event -> Prop).

Lemma emits_silent (m : M A) :
  (forall w, trace (snd (m w)) = trace w) -> emits P m.
Proof.
  intros H w. exists []. rewrite H, app_nil_r. split; [reflexivity|constructor].
Qed.

Lemma emits_ret (a : A) : emits P (ret a).
Proof. apply emits_silent. reflexivity. Qed.

Lemma emits_throw (message : string) : emits P (@throw A message).
Proof. apply emits_silent. reflexivity. Qed.

Lemma emits_diverge : emits P (@diverge A).
Proof. apply emits_silent. reflexivity. Qed.

Lemma emits_crash (message : string) : emits P (@crash A message).
Proof. apply emits_silent. reflexivity. Qed.

Lemma emits_bind (m : M A) (k : A -> M B) :
  emits P m -> (forall a, emits P (k a)) -> emits P (bind m k).
Proof.
  intros Hm Hk w. unfold bind. destruct (Hm w) as (e1 & Ht1 & HP1).
  destruct (m w) as [[a|message| |message] w1]; cbn in Ht1 |- *.
  - destruct (Hk a w1) as (e2 & Ht2 & HP2). exists (e1 ++ e2)%list.
    rewrite Ht2, Ht1, app_assoc. split; [reflexivity|].
    apply Forall_app; auto.
  - exists e1. auto.
  - exists e1. auto.
  - exists e1. auto.
Qed.

Lemma emits_try_catch (m : M A) (handler : string -> M A) :
  emits P m -> (forall message, emits P (handler message)) ->
  emits P (try_catch m handler).
Proof.
  intros Hm Hh w. unfold try_catch. destruct (Hm w) as (e1 & Ht1 & HP1).
  destruct (m w) as [[a|message| |message] w1]; cbn in Ht1 |- *.
  - exists e1. auto.
  - destruct (Hh message w1) as (e2 & Ht2 & HP2). exists (e1 ++ e2)%list.
    rewrite Ht2, Ht1, app_assoc. split; [reflexivity|].
    apply Forall_app; auto.
  - exists e1. auto.
  - exists e1. auto.
Qed.

Lemma emits_settle (timeout : option Z) (r : reply A) : emits P (settle timeout r).
Proof. destruct r as [a|message|]; [| |destruct timeout]; apply emits_silent; reflexivity. Qed.

End Emits.

Lemma emits_emit (P : event -> Prop) (e : event) : P e -> emits P (emit e).
Proof.
  intros He w. exists [e]. split; [reflexivity|]. constructor; [exact He|constructor].
Qed.

Lemma emits_next_call (P : event -> Prop) : emits P next_call.
Proof. apply emits_silent. reflexivity. Qed.

Lemma emits_get_fs (P : event -> Prop) : emits P get_fs.
Proof. apply emits_silent. reflexivity. Qed.

Lemma emits_put_fs (P : event -> Prop) files : emits P (put_fs files).
Proof. apply emits_silent. reflexivity. Qed.

Section Settles.

Context {A B : Type}.

Lemma settles_ret (a : A) : settles (ret a).
Proof. intros w. discriminate. Qed.

Lemma settles_throw (message : string) : settles (@throw A message).
Proof. intros w. discriminate. Qed.

Lemma settles_bind (m : M A) (k : A -> M B) :
  settles m -> (forall a, settles (k a)) -> settles (bind m k).
Proof.
  intros Hm Hk w. unfold bind. specialize (Hm w).
  destruct (m w) as [[a|message| |message] w1]; cbn in *;
    [apply Hk|discriminate|congruence|discriminate].
Qed.

Lemma settles_try_catch (m : M A) (handler : string -> M A) :
  settles m -> (forall message, settles (handler message)) ->
  settles (try_catch m handler).
Proof.
  intros Hm Hh w. unfold try_catch. specialize (Hm w).
  destruct (m w) as [[a|message| |message] w1]; cbn in *;
    [discriminate|apply Hh|congruence|discriminate].
Qed.

Lemma settles_settle (ms : Z) (r : reply A) : settles (settle (Some ms) r).
Proof. destruct r; intros w; discriminate. Qed.

End Settles.

Section Survives.

Context {A B : Type}.

Lemma survives_ret (a : A) : survives (ret a).
Proof. intros w message. discriminate. Qed.

Lemma survives_throw (failure : string) : survives (@throw A failure).
Proof. intros w message. discriminate. Qed.

Lemma survives_diverge : survives (@diverge A).
Proof. intros w message. discriminate. Qed.

Lemma survives_bind (m : M A) (k : A -> M B) :
  survives m -> (forall a, survives (k a)) -> survives (bind m k).
Proof.
  intros Hm Hk w message. unfold bind. specialize (Hm w).
  destruct (m w) as [[a|failure| |failure] w1]; cbn in *;
    [apply Hk|discriminate|discriminate|].
  intros [= <-]. apply (Hm failure). reflexivity.
Qed.

Lemma survives_try_catch (m : M A) (handler : string -> M A) :
  survives m -> (forall message, survives (handler message)) ->
  survives (try_catch m handler).
Proof.
  intros Hm Hh w message. unfold try_catch. specialize (Hm w).
  destruct (m w) as [[a|failure| |failure] w1]; cbn in *;
    [discriminate|apply Hh|discriminate|].
  intros [= <-]. apply (Hm failure). reflexivity.
Qed.

Lemma survives_settle (timeout : option Z) (r : reply A) : survives (settle timeout r).
Proof.
  destruct r as [a|failure|]; [| |destruct timeout]; intros w message; discriminate.
Qed.

End Survives.

Lemma survives_emit (e : event) : survives (emit e).
Proof. intros w message. discriminate. Qed.

Lemma survives_next_call : survives next_call.
Proof. intros w message. discriminate. Qed.

Lemma survives_get_fs : survives get_fs.
Proof. intros w message. discriminate. Qed.

Lemma survives_put_fs files : survives (put_fs files).
Proof. intros w message. discriminate. Qed.

Lemma settles_emit (e : event) : settles (emit e).
Proof. intros w. discriminate. Qed.

Lemma settles_next_call : settles next_call.
Proof. intros w. discriminate. Qed.

Lemma settles_get_fs : settles get_fs.
Proof. intros w. discriminate. Qed.

Lemma settles_put_fs files : settles (put_fs files).
Proof. intros w. discriminate. Qed.

(** One step through the structure of a computation. *)
Ltac emits_step :=
  first
    [ apply emits_ret | apply emits_throw | apply emits_diverge | apply emits_crash
    | apply emits_get_fs | apply emits_put_fs | apply emits_next_call
    | apply emits_settle
    | apply emits_emit; exact I
    | apply emits_bind; [|intros]
    | apply emits_try_catch; [|intros]
    | match goal with
      | |- emits _ (match ?x with _ => _ end) => destruct x
      end ].

Ltac survives_step :=
  first
    [ apply survives_ret | apply survives_throw | apply survives_diverge
    | apply survives_get_fs | apply survives_put_fs | apply survives_next_call
    | apply survives_settle | apply survives_emit
    | apply survives_bind; [|intros]
    | apply survives_try_catch; [|intros]
    | match goal with
      | |- survives (match ?x with _ => _ end) => destruct x
      | |- survives (if ?x then _ else _) => destruct x
      end ].

Ltac settles_step :=
  first
    [ apply settles_ret | apply settles_throw
    | apply settles_get_fs | apply settles_put_fs | apply settles_next_call
    | apply settles_settle | apply settles_emit
    | apply settles_bind; [|intros]
    | apply settles_try_catch; [|intros]
    | match goal with
      | |- settles (match ?x with _ => _ end) => destruct x
      end ].

Section WithEnvironment.

Variable env : environment.
Variable P : event -> Prop.

Lemma emits_existsSync path : emits P (existsSync path).
Proof. unfold existsSync. repeat emits_step. Qed.

Lemma emits_statSync_size path : emits P (statSync_size path).
Proof. unfold statSync_size. repeat emits_step. Qed.

Lemma emits_unlinkSync path : emits P (unlinkSync path).
Proof. unfold unlinkSync. repeat emits_step. Qed.

Lemma emits_createWriteStream path : emits P (createWriteStream env path).
Proof. unfold createWriteStream. repeat emits_step. Qed.

Lemma emits_write_chunk path chunk : emits P (write_chunk path chunk).
Proof. unfold write_chunk. repeat emits_step. Qed.

Lemma emits_axios_head url timeout :
  P (AxiosHead url timeout) -> emits P (axios_head env url timeout).
Proof.
  intros H. unfold axios_head. apply emits_bind; [apply emits_emit, H|intros].
  repeat emits_step.
Qed.

Lemma emits_axios_get url timeout :
  P (AxiosGet url false timeout) -> emits P (axios_get env url timeout).
Proof.
  intros H. unfold axios_get. apply emits_bind; [apply emits_emit, H|intros].
  repeat emits_step.
Qed.

Lemma emits_axios_get_stream url timeout :
  P (AxiosGet url true timeout) -> emits P (axios_get_stream env url timeout).
Proof.
  intros H. unfold axios_get_stream. apply emits_bind; [apply emits_emit, H|intros].
  repeat emits_step.
Qed.

Lemma emits_spawn command args timer :
  P (Spawn command args timer) -> emits P (Converter.spawn env command args timer).
Proof.
  intros H. unfold Converter.spawn. apply emits_bind; [apply emits_emit, H|intros].
  repeat emits_step.
Qed.

End WithEnvironment.

Lemma settles_existsSync path : settles (existsSync path).
Proof. unfold existsSync. repeat settles_step. Qed.

Lemma settles_statSync_size path : settles (statSync_size path).
Proof. unfold statSync_size. repeat settles_step. Qed.

Lemma settles_unlinkSync path : settles (unlinkSync path).
Proof. unfold unlinkSync. repeat settles_step. Qed.

Lemma settles_spawn env command args ms :
  settles (Converter.spawn env command args (Some ms)).
Proof. unfold Converter.spawn. repeat settles_step. Qed.

Lemma survives_existsSync path : survives (existsSync path).
Proof. unfold existsSync. repeat survives_step. Qed.

Lemma survives_statSync_size path : survives (statSync_size path).
Proof. unfold statSync_size. repeat survives_step. Qed.






Lemma survives_spawn env command args timer :
  survives (Converter.spawn env command args timer).
Proof. unfold Converter.spawn. repeat survives_step. Qed.

End Traces.

(** ** The converter *)

Module ConverterFacts.
Import Effects Converter Traces.

Section WithEnvironment.

Variable env : environment.

Lemma emits_runFFmpeg (P : event -> Prop) inputPath outputPath args :
  P (Console (FFmpegCommand args)) ->
  P (Spawn (show_path (ffmpegPath env)) args (Some (5 * 60 * 1000))) ->
  P (Kill "SIGKILL") ->
  emits P (runFFmpeg env inputPath outputPath args).
Proof.
  intros Hc Hs Hk. unfold runFFmpeg.
  repeat first
    [ apply emits_existsSync | apply emits_statSync_size
    | apply emits_spawn; assumption
    | apply emits_emit; assumption
    | emits_step ].
Qed.

Lemma settles_runFFmpeg inputPath outputPath args :
  settles (runFFmpeg env inputPath outputPath args).
Proof.
  unfold runFFmpeg.
  repeat first
    [ apply settles_existsSync | apply settles_statSync_size
    | apply settles_spawn | settles_step ].
Qed.

Lemma survives_runFFmpeg inputPath outputPath args :
  survives (runFFmpeg env inputPath outputPath args).
Proof.
  unfold runFFmpeg.
  repeat first
    [ apply survives_existsSync | apply survives_statSync_size
    | apply survives_spawn | survives_step ].
Qed.

(** One [try] block: the strategy is announced, the tool is run, and either
    the success is announced or the [catch] block gets the message. *)
Lemma attempt_run (s : strategy) inputPath outputPath on_failure (w : world) :
  attempt env s inputPath outputPath on_failure w =
  match runFFmpeg env inputPath outputPath (strategy_args s inputPath outputPath)
          (logged (Console (Trying s inputPath outputPath)) w) with
  | (Return _, w1) => (Return true, logged (Console (Successful s)) w1)
  | (Throw message, w1) => on_failure message w1
  | (Diverge, w1) => (Diverge, w1)
  | (Crash message, w1) => (Crash message, w1)
  end.
Proof.
  unfold attempt, try_catch, bind, emit.
  match goal with
  | |- context [runFFmpeg ?e ?i ?o ?a ?w] =>
      destruct (runFFmpeg e i o a w) as [[[]|message| |message] w1]; reflexivity
  end.
Qed.







(** The [catch] block of a strategy gets a failure to start the tool as
    it gets any other failure of the strategy. *)
Lemma attempt_spawn_error (s : strategy) inputPath outputPath on_failure
    (w : world) (binary message : string) files' :
  is_Some (fs w !! inputPath) ->
  ffmpegPath env = Some binary -> JS.truthy binary = true ->
  is_Some (fs w !! binary) ->
  run_process env (calls w) binary (strategy_args s inputPath outputPath) (fs w)
  = (SpawnError message, files') ->
  attempt env s inputPath outputPath on_failure w
  = on_failure (spawn_failed message)
      {| fs := files';
         trace := trace w ++
                  [ Console (Trying s inputPath outputPath);
                    Console (FFmpegCommand (strategy_args s inputPath outputPath));
                    Spawn binary (strategy_args s inputPath outputPath)
                      (Some (5 * 60 * 1000)) ];
         calls := S (calls w) |}.
Proof.
  intros Hinput Hpath Htruthy Hbinary Hrun. rewrite attempt_run.
  cbv [runFFmpeg spawn bind emit existsSync get_fs put_fs next_call ret throw logged].
  cbn [fs trace calls].
  rewrite (bool_decide_eq_true_2 _ Hinput). cbn [negb fs trace calls].
  rewrite Hpath, Htruthy.
  rewrite (bool_decide_eq_true_2 _ Hbinary). cbn [negb show_path fs trace calls].
  rewrite Hrun. cbn [fs trace calls]. rewrite <- !app_assoc. reflexivity.
Qed.

(** C5, as the code has it.  A failure to start the tool has a message of
    its own, "Failed to start FFmpeg process: ...", and is a failure of the
    strategy like any other: the [catch] block of the strategy gets it, so
    that after it the converter goes on to the next strategy, and a tool
    that can never be started makes the converter try all three and throw
    "All FFmpeg conversion strategies failed", with that message as the
    last error. *)
Theorem spawn_error_is_a_strategy_failure
    (inputPath outputPath : string) (w : world) (binary message : string) :
  is_Some (fs w !! inputPath) ->
  ffmpegPath env = Some binary -> JS.truthy binary = true ->
  is_Some (fs w !! binary) ->
  (forall s on_failure files',
     run_process env (calls w) binary (strategy_args s inputPath outputPath) (fs w)
     = (SpawnError message, files') ->
     exists w1,
       attempt env s inputPath outputPath on_failure w
       = on_failure (spawn_failed message) w1)
  /\
  ((forall n args files, run_process env n binary args files = (SpawnError message, files)) ->
   fst (convertTsToMp4 env inputPath outputPath w)
   = Throw (all_failed (spawn_failed message))
   /\ Spec.tried (drop (List.length (trace w))
                    (trace (snd (convertTsToMp4 env inputPath outputPath w))))
      = Spec.strategies).
Proof.
  intros Hinput Hpath Htruthy Hbinary. split.
  - intros s on_failure files' Hrun. eexists.
    apply (attempt_spawn_error s inputPath outputPath on_failure w binary message files');
      assumption.
  - intros Hdead.
    destruct (convertTsToMp4 env inputPath outputPath w) as [r w'] eqn:Hconv.
    cbn [fst snd]. revert Hconv.
    unfold convertTsToMp4. unfold bind at 1.
    rewrite (attempt_spawn_error Copy inputPath outputPath _ w binary message (fs w));
      auto.
    unfold bind at 1. unfold emit at 1. unfold ret at 1. cbn match.
    unfold bind at 1.
    rewrite (attempt_spawn_error Reencode inputPath outputPath _ _ binary message (fs w));
      auto.
    unfold bind at 1. unfold emit at 1. unfold ret at 1. cbn match.
    unfold bind at 1.
    rewrite (attempt_spawn_error Basic inputPath outputPath _ _ binary message (fs w));
      auto.
    unfold bind at 1. unfold emit at 1. unfold throw at 1.
    intros [= <- <-]. split; [reflexivity|].
    cbn [trace logged]. rewrite <- !app_assoc, drop_app_length. reflexivity.
Qed.

End WithEnvironment.



Lemma spawn_error_is_a_strategy_failure_witness :
  fst (convertTsToMp4 Examples.offline "/app/downloads/v.ts" "/app/downloads/v.mp4"
         Examples.downloaded)
  = Throw (all_failed (spawn_failed "spawn ENOENT")).
Proof.
  destruct (spawn_error_is_a_strategy_failure Examples.offline "/app/downloads/v.ts"
              "/app/downloads/v.mp4" Examples.downloaded "/bin/ffmpeg" "spawn ENOENT")
    as [_ Hall].
  - vm_compute. eauto.
  - reflexivity.
  - reflexivity.
  - vm_compute. eauto.
  - destruct Hall as [Hthrows _]; [reflexivity|]. exact Hthrows.
Defined.

(** C5, as it is stated, fails: the tool cannot be started for the first
    strategy, and the converter goes on to the second and returns. *)
Lemma spawn_error_is_not_fatal :
  ~ (forall env inputPath outputPath w binary message files',
       is_Some (fs w !! inputPath) ->
       ffmpegPath env = Some binary -> JS.truthy binary = true ->
       is_Some (fs w !! binary) ->
       run_process env (calls w) binary (strategy_args Copy inputPath outputPath) (fs w)
       = (SpawnError message, files') ->
       exists failure, fst (convertTsToMp4 env inputPath outputPath w) = Throw failure).
Proof.
  intros claim.
  destruct (claim Examples.unstartable_once "/app/downloads/v.ts" "/app/downloads/v.mp4"
              Examples.downloaded "/bin/ffmpeg" "spawn EAGAIN" (fs Examples.downloaded))
    as [failure Hfatal].
  - vm_compute. eauto.
  - reflexivity.
  - reflexivity.
  - vm_compute. eauto.
  - reflexivity.
  - vm_compute in Hfatal. discriminate Hfatal.
Qed.

End ConverterFacts.

(** ** The pipeline *)

Module PipelineFacts.
Import Effects Traces.

(** One step through a computation of the pipeline, for a property that
    holds of each event it meets by computation. *)
Ltac io_step :=
  first
    [ apply emits_existsSync | apply emits_statSync_size | apply emits_unlinkSync
    | apply emits_createWriteStream | apply emits_write_chunk
    | apply emits_axios_head; exact I
    | apply emits_axios_get; exact I
    | apply emits_axios_get_stream; exact I
    | apply emits_spawn; exact I
    | apply ConverterFacts.emits_runFFmpeg; exact I
    | emits_step ].

Section WithEnvironment.

Variable env : environment.

Lemma emits_write_chunks outputPath data :
  emits Spec.not_head (Downloader.write_chunks outputPath data).
Proof. induction data; cbn [Downloader.write_chunks]; repeat io_step. exact IHdata. Qed.

Lemma emits_segment_loop outputPath segments :
  forall downloadedSegments,
    emits Spec.not_head (Downloader.segment_loop env outputPath segments downloadedSegments).
Proof.
  induction segments as [|segment rest IH]; intros d; cbn [Downloader.segment_loop].
  - io_step.
  - unfold Downloader.pipe.
    repeat first [apply emits_write_chunks | apply IH | io_step].
Qed.

Lemma emits_segment_loop_unopened (P : event -> Prop) message segments :
  (forall url, P (AxiosGet url true (Some 30000))) ->
  emits P (Downloader.segment_loop_unopened env message segments).
Proof.
  intros HP. induction segments as [|segment rest IH];
    cbn [Downloader.segment_loop_unopened]; [io_step|].
  apply emits_bind; [apply emits_emit, HP|intros _].
  repeat first [apply IH | emits_step].
Qed.

Lemma emits_download_segments segments outputPath :
  emits Spec.not_head (Downloader.download_segments env segments outputPath).
Proof.
  unfold Downloader.download_segments.
  repeat first
    [ apply emits_segment_loop
    | apply emits_segment_loop_unopened; intros; exact I
    | io_step ].
Qed.

Lemma emits_downloadHLS depth :
  forall m3u8Url outputPath,
    emits Spec.not_head (Downloader.downloadHLS env depth m3u8Url outputPath).
Proof.
  induction depth as [|depth IH]; intros m3u8Url outputPath; cbn [Downloader.downloadHLS].
  - io_step.
  - repeat first [apply emits_download_segments | apply IH | io_step].
Qed.

(** The first thing [downloadHLS] does is to fetch the playlist at the URL
    it is given, with no timeout. *)
Lemma downloadHLS_first_event depth m3u8Url outputPath (w : world) :
  exists rest,
    trace (snd (Downloader.downloadHLS env (S depth) m3u8Url outputPath w))
    = (trace w ++ AxiosGet m3u8Url false None :: rest)%list
    /\ Forall Spec.not_head rest.
Proof.
  set (after_request :=
         try_catch
           (let! playlist :=
              (let! n := next_call in settle None (http_get env n m3u8Url)) in
            match Parser.parse_playlist m3u8Url playlist with
            | Parser.Master fullStreamUrl =>
                Downloader.downloadHLS env depth fullStreamUrl outputPath
            | Parser.ParseError message => throw message
            | Parser.Media segments =>
                Downloader.download_segments env segments outputPath
            end)
           (fun message => throw ("HLS download failed: " +:+ message))).
  assert (Hemits : emits Spec.not_head after_request).
  { unfold after_request.
    repeat first [apply emits_download_segments | apply emits_downloadHLS | io_step]. }
  destruct (Hemits (logged (AxiosGet m3u8Url false None) w)) as (rest & Htrace & Hrest).
  exists rest. split; [|exact Hrest].
  change (Downloader.downloadHLS env (S depth) m3u8Url outputPath w)
    with (after_request (logged (AxiosGet m3u8Url false None) w)).
  rewrite Htrace. cbn [trace logged]. rewrite <- app_assoc. reflexivity.
Qed.

Lemma emits_diagnoseTsFile tsPath :
  emits Spec.not_head (Diagnostics.diagnoseTsFile env tsPath).
Proof. unfold Diagnostics.diagnoseTsFile. repeat io_step. Qed.

Lemma emits_convertTsToMp4 inputPath outputPath :
  emits Spec.not_head (Converter.convertTsToMp4 env inputPath outputPath).
Proof. unfold Converter.convertTsToMp4, Converter.attempt. repeat io_step. Qed.

Lemma emits_convert_or_fall_back tsPath mp4Path tsFileName mp4FileName :
  emits Spec.not_head
    (Server.convert_or_fall_back env tsPath mp4Path tsFileName mp4FileName).
Proof.
  unfold Server.convert_or_fall_back.
  repeat first [apply emits_convertTsToMp4 | io_step].
Qed.

(** Apart from the fetch of the playlist and the probe of the diagnosis,
    the calls have a bound: 30 seconds for a segment, 10, 15 and 5 seconds
    in the resolver, five minutes for a conversion. *)
Lemma bounded_write_chunks outputPath data :
  emits Spec.bounded (Downloader.write_chunks outputPath data).
Proof. induction data; cbn [Downloader.write_chunks]; repeat io_step. exact IHdata. Qed.

Lemma bounded_segment_loop outputPath segments :
  forall downloadedSegments,
    emits Spec.bounded (Downloader.segment_loop env outputPath segments downloadedSegments).
Proof.
  induction segments as [|segment rest IH]; intros d;
    cbn [Downloader.segment_loop]; [io_step|].
  unfold Downloader.pipe.
  repeat first [apply bounded_write_chunks | apply IH | io_step].
Qed.

Lemma bounded_download_segments segments outputPath :
  emits Spec.bounded (Downloader.download_segments env segments outputPath).
Proof.
  unfold Downloader.download_segments.
  repeat first
    [ apply bounded_segment_loop
    | apply emits_segment_loop_unopened; intros; exact I
    | io_step ].
Qed.

Lemma bounded_convertTsToMp4 inputPath outputPath :
  emits Spec.bounded (Converter.convertTsToMp4 env inputPath outputPath).
Proof. unfold Converter.convertTsToMp4, Converter.attempt. repeat io_step. Qed.

Lemma bounded_probe urls ms :
  emits Spec.bounded (Resolver.probe env urls (Some ms)).
Proof.
  induction urls as [|m3u8Url rest IH]; cbn [Resolver.probe]; [io_step|].
  repeat first [apply IH | io_step].
Qed.

Lemma bounded_extractTwitchM3U8 twitchUrl :
  emits Spec.bounded (Resolver.extractTwitchM3U8 env twitchUrl).
Proof.
  unfold Resolver.extractTwitchM3U8.
  repeat first [apply bounded_probe | io_step].
Qed.

Lemma emits_check_and_convert downloadedSegments tsPath mp4Path tsFileName mp4FileName :
  emits Spec.not_head
    (Server.check_and_convert env downloadedSegments tsPath mp4Path tsFileName mp4FileName).
Proof.
  unfold Server.check_and_convert.
  repeat first
    [ apply emits_diagnoseTsFile | apply emits_convert_or_fall_back | io_step ].
Qed.

(** The clean-up leaves none of its paths behind, and no other path is
    touched. *)
Lemma clean_up_spec (paths : list string) :
  forall w, exists w',
    Server.clean_up paths w = (Return tt, w')
    /\ (forall filePath, In filePath paths -> fs w' !! filePath = None)
    /\ (forall filePath, ~ In filePath paths -> fs w' !! filePath = fs w !! filePath).
Proof.
  induction paths as [|first rest IH]; intros w.
  - exists w. split; [reflexivity|]. split; [intros filePath []|reflexivity].
  - cbn [Server.clean_up].
    cbv [bind existsSync get_fs ret try_catch unlinkSync put_fs throw].
    destruct (fs w !! first) as [content|] eqn:Hfirst.
    + rewrite bool_decide_eq_true_2 by eauto.
      destruct (IH {| fs := delete first (fs w); trace := trace w; calls := calls w |})
        as (w' & Hrun & Hgone & Hkept).
      rewrite Hfirst. cbv beta iota. rewrite Hrun. exists w'.
      split; [reflexivity|]. cbn [fs] in Hkept. split.
      * intros filePath [<-|Hin]; [|auto].
        destruct (List.in_dec String.string_dec first rest) as [Hin|Hout]; [auto|].
        rewrite Hkept by exact Hout. apply lookup_delete_eq.
      * intros filePath Hout. rewrite Hkept by (intros Hin; apply Hout; right; exact Hin).
        apply lookup_delete_ne. intros ->. apply Hout. left. reflexivity.
    + rewrite bool_decide_eq_false_2 by (intros [? ?]; congruence).
      destruct (IH w) as (w' & Hrun & Hgone & Hkept).
      rewrite Hrun. exists w'. split; [reflexivity|]. split.
      * intros filePath [<-|Hin]; [|auto].
        destruct (List.in_dec String.string_dec first rest) as [Hin|Hout]; [auto|].
        rewrite Hkept by exact Hout. exact Hfirst.
      * intros filePath Hout. apply Hkept. intros Hin. apply Hout. right. exact Hin.
Qed.

(** The base file name of a body of strings. *)
Lemma baseFileName_of_strings (now : Z) (vodUrl fileName : string) :
  Server.baseFileName_of now (JS.Str vodUrl) (JS.Str fileName)
  = inr (Server.baseFileName now vodUrl fileName).
Proof.
  unfold Server.baseFileName_of, Server.baseFileName. cbn [JS.truthy_value].
  destruct fileName; reflexivity.
Qed.

(** X26.  When the [try] block of the route throws, so that there is no
    deliverable, the route answers with status 500: the error message, the
    list of possible causes and the list of suggestions; and in the state
    in which this answer is given neither the raw stream path nor the MP4
    path is on disk any more.  This holds of every body whose base file
    name can be made, a [vodUrl] that is not a string among them. *)
Theorem failure_cleans_up (depth : nat) (vodUrl fileName : JS.value) (w : world)
    (base message : string) :
  let tsFileName := base +:+ ".ts" in
  let mp4FileName := base +:+ ".mp4" in
  let tsPath := Path.join (DOWNLOAD_DIR env) tsFileName in
  let mp4Path := Path.join (DOWNLOAD_DIR env) mp4FileName in
  JS.truthy_value vodUrl = true ->
  Server.baseFileName_of (Date_now env) vodUrl fileName = inr base ->
  fst (Server.try_block env depth vodUrl tsPath mp4Path tsFileName mp4FileName w)
  = Throw message ->
  let answer := Server.download_vod env depth vodUrl fileName w in
  fst answer
  = Return (Server.Status500 message "HLS download or MP4 conversion failed"
              Server.POSSIBLE_CAUSES Server.SUGGESTIONS)
  /\ fs (snd answer) !! tsPath = None
  /\ fs (snd answer) !! mp4Path = None.
Proof.
  intros tsFileName mp4FileName tsPath mp4Path Hurl Hbase Hthrows answer.
  subst answer.
  destruct (Server.download_vod env depth vodUrl fileName w) as [r final] eqn:Hrun.
  cbn [fst snd]. revert Hrun.
  unfold Server.download_vod. rewrite Hurl, Hbase. cbn [negb].
  fold tsFileName mp4FileName. fold tsPath mp4Path.
  unfold try_catch. unfold bind at 1.
  destruct (Server.try_block env depth vodUrl tsPath mp4Path tsFileName mp4FileName w)
    as [[body|failure| |failure] w1]; cbn [fst] in Hthrows; try discriminate Hthrows.
  injection Hthrows as ->.
  unfold bind.
  destruct (clean_up_spec [tsPath; mp4Path] w1) as (w' & Hclean & Hgone & _).
  rewrite Hclean. cbv [ret]. intros [= <- <-].
  repeat split; apply Hgone; cbn; auto.
Qed.

(** C9.  The resolver runs exactly when the source URL contains
    "twitch.tv" and does not contain ".m3u8".  For every other source URL
    the pipeline is the download and conversion of that very URL: its
    first request is the fetch of the playlist at the source URL, and it
    sends none of the resolver's [HEAD] requests. *)
Theorem resolver_runs_for_twitch_pages_only (depth : nat) (vodUrl : string)
    (tsPath mp4Path tsFileName mp4FileName : string) (w : world) :
  Server.is_twitch_page vodUrl
  = JS.includes vodUrl "twitch.tv" && negb (JS.includes vodUrl ".m3u8")
  /\ (Server.is_twitch_page vodUrl = true ->
      Server.pipeline env depth vodUrl tsPath mp4Path tsFileName mp4FileName w
      = (let! m3u8Url := Resolver.extractTwitchM3U8 env vodUrl in
         Server.download_and_convert env depth m3u8Url tsPath mp4Path
           tsFileName mp4FileName) w)
  /\ (Server.is_twitch_page vodUrl = false ->
      Server.pipeline env depth vodUrl tsPath mp4Path tsFileName mp4FileName w
      = Server.download_and_convert env depth vodUrl tsPath mp4Path
          tsFileName mp4FileName w
      /\ exists rest,
           trace (snd (Server.pipeline env (S depth) vodUrl tsPath mp4Path
                         tsFileName mp4FileName w))
           = (trace w ++ AxiosGet vodUrl false None :: rest)%list
           /\ Forall Spec.not_head rest).
Proof.
  split; [reflexivity|]. split.
  - intros Hpage. unfold Server.pipeline, Server.resolve_source. rewrite Hpage.
    reflexivity.
  - intros Hpage. unfold Server.pipeline, Server.resolve_source. rewrite Hpage.
    split; [reflexivity|].
    change ((let! m3u8Url := ret vodUrl in
             Server.download_and_convert env (S depth) m3u8Url tsPath mp4Path
               tsFileName mp4FileName) w)
      with (Server.download_and_convert env (S depth) vodUrl tsPath mp4Path
              tsFileName mp4FileName w).
    unfold Server.download_and_convert, bind.
    destruct (downloadHLS_first_event depth vodUrl tsPath w) as (rest1 & Ht1 & Hr1).
    destruct (Downloader.downloadHLS env (S depth) vodUrl tsPath w)
      as [[downloadedSegments|message| |message] w1]; cbn [snd] in Ht1 |- *; eauto.
    destruct (emits_check_and_convert downloadedSegments tsPath mp4Path
                tsFileName mp4FileName w1) as (rest2 & Ht2 & Hr2).
    exists (rest1 ++ rest2)%list. split.
    + rewrite Ht2, Ht1, <- app_assoc. reflexivity.
    + apply Forall_app. auto.
Qed.

End WithEnvironment.

Lemma failure_cleans_up_witness :
  fst (Server.download_vod Examples.lossy 1 (JS.Str "https://host/vod/index.m3u8")
         (JS.Str "clip.mp4") Examples.start)
  = Return (Server.Status500
              "HLS download failed: No segments were downloaded successfully"
              "HLS download or MP4 conversion failed"
              Server.POSSIBLE_CAUSES Server.SUGGESTIONS)
  /\ fs (snd (Server.download_vod Examples.lossy 1
                (JS.Str "https://host/vod/index.m3u8") (JS.Str "clip.mp4")
                Examples.start)) !! "/app/downloads/clip.ts" = None.
Proof.
  destruct (failure_cleans_up Examples.lossy 1 (JS.Str "https://host/vod/index.m3u8")
              (JS.Str "clip.mp4") Examples.start "clip"
              "HLS download failed: No segments were downloaded successfully")
    as (Hanswer & Hts & _).
  - reflexivity.
  - reflexivity.
  - vm_compute. reflexivity.
  - split; [exact Hanswer|exact Hts].
Defined.

(** C8, on the code.  The raw stream file of the request below is to be
    opened in a directory that is not there.  The error of the write
    stream has no listener before line 473, so that the process ends
    while the first segment is awaited: the [catch] block of the route
    does not run, and no answer is given, neither the structured error
    nor any other. *)
Theorem unwritable_output_ends_the_process :
  let answer :=
    Server.download_vod Examples.without_sub 1 (JS.Str "https://host/vod/index.m3u8")
      (JS.Str "sub/clip.mp4") Examples.start in
  Server.tsPath_of Examples.without_sub "https://host/vod/index.m3u8" "sub/clip.mp4"
  = "/app/downloads/sub/clip.ts"
  /\ fst answer
     = Crash "ENOENT: no such file or directory, open '/app/downloads/sub/clip.ts'"
  /\ trace (snd answer)
     = [ AxiosGet "https://host/vod/index.m3u8" false None;
         AxiosGet "https://host/vod/seg0.ts" true (Some 30000) ]
  /\ fs (snd answer) = fs Examples.start
  /\ (forall status, fst answer <> Return status).
Proof.
  cbv zeta. split; [reflexivity|]. split; [vm_compute; reflexivity|].
  split; [vm_compute; reflexivity|]. split; [vm_compute; reflexivity|].
  intros status. vm_compute. discriminate.
Qed.

Lemma resolver_runs_for_twitch_pages_only_witness :
  Server.is_twitch_page "https://example.com/watch?v=1" = false /\
  Server.pipeline Examples.offline 1 "https://example.com/watch?v=1"
    "/app/downloads/v.ts" "/app/downloads/v.mp4" "v.ts" "v.mp4" Examples.start
  = Server.download_and_convert Examples.offline 1 "https://example.com/watch?v=1"
      "/app/downloads/v.ts" "/app/downloads/v.mp4" "v.ts" "v.mp4" Examples.start.
Proof.
  split; [reflexivity|].
  destruct (resolver_runs_for_twitch_pages_only Examples.offline 1
              "https://example.com/watch?v=1" "/app/downloads/v.ts"
              "/app/downloads/v.mp4" "v.ts" "v.mp4" Examples.start)
    as (_ & _ & Hother).
  destruct Hother as [Hsame _]; [reflexivity|]. exact Hsame.
Defined.

(** C6, on the code.  The fetch of the playlist is sent without a timeout:
    when the server never answers, [downloadHLS] never settles.  The same
    holds of the probing process of the diagnosis, which has no timer.
    A conversion that does not end is killed with SIGKILL when its timer
    of five minutes fires, and a segment request is given 30 seconds. *)
Theorem playlist_fetch_has_no_timeout (depth : nat) :
  let fetch :=
    Downloader.downloadHLS Examples.stalled (S depth) "https://host/vod/index.m3u8"
      "/app/downloads/v.ts" Examples.start in
  let probe :=
    Diagnostics.diagnoseTsFile Examples.stalled "/app/downloads/v.ts"
      Examples.downloaded in
  let conversion :=
    Converter.runFFmpeg Examples.stalled "/app/downloads/v.ts" "/app/downloads/v.mp4"
      ["-i"; "/app/downloads/v.ts"; "-f"; "mp4"; "-y"; "/app/downloads/v.mp4"]
      Examples.downloaded in
  let segment :=
    Downloader.segment_loop Examples.stalled "/app/downloads/v.ts"
      ["https://host/vod/seg0.ts"] 0 Examples.start in
  (fst fetch = Diverge
   /\ trace (snd fetch) = [AxiosGet "https://host/vod/index.m3u8" false None]
   /\ Spec.call_bounds (trace (snd fetch)) = [None])
  /\ (fst probe = Diverge
      /\ Spec.call_bounds (trace (snd probe)) = [None])
  /\ (fst conversion = Throw Converter.TIMEOUT
      /\ Spec.call_bounds (trace (snd conversion)) = [Some 300000]
      /\ last (trace (snd conversion)) = Some (Kill "SIGKILL"))
  /\ (fst segment = Return 0
      /\ trace (snd segment) = [AxiosGet "https://host/vod/seg0.ts" true (Some 30000)]).
Proof.
  cbv zeta. split; [|split; [|split]].
  - repeat split; reflexivity.
  - split; vm_compute; reflexivity.
  - repeat split; vm_compute; reflexivity.
  - split; vm_compute; reflexivity.
Qed.

End PipelineFacts.

(** ** The artifact route *)

Module VodFacts.








End VodFacts.

(** * Further properties of the code *)

(** ** What a computation does to the disk, and whether it throws *)

Module Frames.
Import Effects.

(** Every run of [m] keeps the property [Q] of the disk. *)
Definition keeps {A} (Q : gmap string (list byte) -> Prop) (m : M A) : Prop :=
  forall w, Q (fs w) -> Q (fs (snd (m w))).

(** No run of [m] throws. *)
Definition never_throws {A} (m : M A) : Prop :=
  forall w message, fst (m w) <> Throw message.

Section Keeps.

Context {A B : Type} (Q : gmap string (list byte) -> Prop).

Lemma keeps_still (m : M A) : (forall w, fs (snd (m w)) = fs w) -> keeps Q m.
Proof. intros H w HQ. rewrite H. exact HQ. Qed.

Lemma keeps_ret (a : A) : keeps Q (ret a).
Proof. apply keeps_still. reflexivity. Qed.

Lemma keeps_throw (message : string) : keeps Q (@throw A message).
Proof. apply keeps_still. reflexivity. Qed.

Lemma keeps_diverge : keeps Q (@diverge A).
Proof. apply keeps_still. reflexivity. Qed.

Lemma keeps_crash (message : string) : keeps Q (@crash A message).
Proof. apply keeps_still. reflexivity. Qed.

Lemma keeps_bind (m : M A) (k : A -> M B) :
  keeps Q m -> (forall a, keeps Q (k a)) -> keeps Q (bind m k).
Proof.
  intros Hm Hk w HQ. unfold bind. specialize (Hm w HQ).
  destruct (m w) as [[a|message| |message] w1]; cbn [snd] in Hm |- *; [|assumption..].
  apply Hk, Hm.
Qed.

Lemma keeps_try_catch (m : M A) (handler : string -> M A) :
  keeps Q m -> (forall message, keeps Q (handler message)) ->
  keeps Q (try_catch m handler).
Proof.
  intros Hm Hh w HQ. unfold try_catch. specialize (Hm w HQ).
  destruct (m w) as [[a|message| |message] w1]; cbn [snd] in Hm |- *;
    [assumption| |assumption..].
  apply Hh, Hm.
Qed.

Lemma keeps_settle (timeout : option Z) (r : reply A) : keeps Q (settle timeout r).
Proof. destruct r as [a|message|]; [| |destruct timeout]; apply keeps_still; reflexivity. Qed.

End Keeps.

Lemma keeps_emit Q (e : event) : keeps Q (emit e).
Proof. apply keeps_still. reflexivity. Qed.

Lemma keeps_next_call Q : keeps Q next_call.
Proof. apply keeps_still. reflexivity. Qed.

Lemma keeps_get_fs Q : keeps Q get_fs.
Proof. apply keeps_still. reflexivity. Qed.

Ltac keeps_step :=
  first
    [ apply keeps_ret | apply keeps_throw | apply keeps_diverge | apply keeps_crash
    | apply keeps_get_fs | apply keeps_next_call | apply keeps_emit
    | apply keeps_settle
    | apply keeps_bind; [|intros]
    | apply keeps_try_catch; [|intros]
    | match goal with
      | |- keeps _ (match ?x with _ => _ end) => destruct x
      end ].

Section WithEnvironment.

Variable env : environment.
Variable Q : gmap string (list byte) -> Prop.

Lemma keeps_axios_head url timeout : keeps Q (axios_head env url timeout).
Proof. unfold axios_head. repeat keeps_step. Qed.

Lemma keeps_axios_get url timeout : keeps Q (axios_get env url timeout).
Proof. unfold axios_get. repeat keeps_step. Qed.

Lemma keeps_axios_get_stream url timeout : keeps Q (axios_get_stream env url timeout).
Proof. unfold axios_get_stream. repeat keeps_step. Qed.

Lemma keeps_existsSync path : keeps Q (existsSync path).
Proof. unfold existsSync. repeat keeps_step. Qed.

Lemma keeps_statSync_size path : keeps Q (statSync_size path).
Proof. unfold statSync_size. repeat keeps_step. Qed.

End WithEnvironment.

(** A [catch] block that returns makes the whole [try] statement one that
    does not throw. *)
Lemma try_catch_never_throws {A} (m : M A) (handler : string -> M A) :
  (forall message, never_throws (handler message)) ->
  never_throws (try_catch m handler).
Proof.
  intros Hh w message. unfold try_catch.
  destruct (m w) as [[a|failure| |failure] w1]; cbn [fst];
    [discriminate|apply Hh|discriminate..].
Qed.

Lemma never_throws_ret {A} (a : A) : never_throws (ret a).
Proof. intros w message. discriminate. Qed.

Lemma never_throws_bind {A B} (m : M A) (k : A -> M B) :
  never_throws m -> (forall a, never_throws (k a)) -> never_throws (bind m k).
Proof.
  intros Hm Hk w message. unfold bind. specialize (Hm w).
  destruct (m w) as [[a|failure| |failure] w1]; cbn [fst] in Hm |- *;
    [apply Hk|exfalso; eapply Hm; reflexivity|discriminate..].
Qed.

(** A [bind] run from a state. *)
Lemma bind_run {A B} (m : Effects.M A) (k : A -> Effects.M B) (w : Effects.world) :
  Effects.bind m k w
  = match m w with
    | (Effects.Return a, w') => k a w'
    | (Effects.Throw message, w') => (Effects.Throw message, w')
    | (Effects.Diverge, w') => (Effects.Diverge, w')
    | (Effects.Crash message, w') => (Effects.Crash message, w')
    end.
Proof. reflexivity. Qed.

End Frames.

(** ** The resolver *)

Module ResolverFacts.
Import Effects Resolver Traces Frames.

Lemma take_digits_app (id rest : string) :
  take_digits id = id -> take_digits rest = EmptyString ->
  take_digits (id +:+ rest) = id.
Proof.
  intros Hid Hrest. induction id as [|c id IH]; [exact Hrest|].
  change (String c id +:+ rest) with (String c (id +:+ rest)).
  cbn [take_digits] in Hid |- *. destruct (is_digit c); [|discriminate Hid].
  injection Hid as Hid. rewrite (IH Hid). reflexivity.
Qed.

(** X1.  The video identifier of a URL of the form
    [https://www.twitch.tv/videos/<digits><rest>], where [rest] does not
    start with a digit, is that run of digits. *)
Theorem video_id_of_videos_url (id rest : string) :
  all_digits id = true ->
  take_digits rest = EmptyString ->
  extract_video_id ("https://www.twitch.tv/videos/" +:+ id +:+ rest) = Some id.
Proof.
  unfold all_digits. intros Hid Hrest.
  apply andb_true_iff in Hid as [Hne Hid]. apply String.eqb_eq in Hid.
  pose proof (take_digits_app id rest Hid Hrest) as Htail.
  unfold extract_video_id. cbv [String.append]. fold String.append.
  set (tail := id +:+ rest) in *.
  replace (JS.includes _ "twitch.tv/videos/") with true
    by (destruct tail; reflexivity).
  cbn [match_digits_after drop_prefix take_digits is_digit].
  cbn. rewrite Htail. destruct id; [discriminate Hne|reflexivity].
Qed.

Lemma video_id_of_videos_url_witness :
  extract_video_id "https://www.twitch.tv/videos/123456789?t=1h2m" = Some "123456789".
Proof.
  apply (video_id_of_videos_url "123456789" "?t=1h2m"); reflexivity.
Defined.

Lemma digits_have_no_letter (s : string) :
  take_digits s = s -> JS.includes s "twitch.tv" = false.
Proof.
  induction s as [|c s IH]; intros Hs; [reflexivity|].
  cbn [take_digits] in Hs. destruct (is_digit c) eqn:Hc; [|discriminate Hs].
  injection Hs as Hs. cbn [JS.includes]. rewrite (IH Hs), orb_false_r.
  cbn [String.prefix]. destruct (ascii_dec "t" c) as [<-|_]; [discriminate Hc|reflexivity].
Qed.

Section WithEnvironment.

Variable env : environment.

(** X2.  A bare numeric video identifier, the third form that
    [extractTwitchM3U8] accepts, never reaches it from the route: it does
    not contain "twitch.tv", so the route hands it to the download as if
    it were a playlist URL, without any request of the resolver. *)
Theorem bare_id_is_not_resolved (vodUrl : string) (w : world) :
  all_digits vodUrl = true ->
  Server.is_twitch_page vodUrl = false
  /\ Server.resolve_source env vodUrl w = (Return vodUrl, w).
Proof.
  unfold all_digits. intros H. apply andb_true_iff in H as [_ H].
  apply String.eqb_eq in H.
  assert (Hpage : Server.is_twitch_page vodUrl = false).
  { unfold Server.is_twitch_page. rewrite (digits_have_no_letter vodUrl H). reflexivity. }
  split; [exact Hpage|]. unfold Server.resolve_source. rewrite Hpage. reflexivity.
Qed.

(** One probe: the answer counts when it is the status 200. *)
Lemma probe_once (m3u8Url : string) (ms : Z) (w : world) :
  try_catch
    (let! status := axios_head env m3u8Url (Some ms) in ret (status =? 200))
    (fun message => ret false) w
  = (Return (match http_head env (calls w) m3u8Url with
             | Resolved status => status =? 200
             | _ => false
             end),
     {| fs := fs w; trace := trace w ++ [AxiosHead m3u8Url (Some ms)];
        calls := S (calls w) |}).
Proof.
  cbv [try_catch bind axios_head emit next_call logged]. cbn [fs trace calls].
  destruct (http_head env (calls w) m3u8Url); reflexivity.
Qed.

Lemma answered_200 (answer : reply Z) :
  (match answer with Resolved status => status =? 200 | _ => false end) = true
  <-> answer = Resolved 200.
Proof.
  destruct answer as [status| |]; cbn; split; try discriminate.
  - intros H. apply Z.eqb_eq in H. congruence.
  - intros [= ->]. reflexivity.
Qed.

(** The probing loop: candidates are asked in order, one request each,
    until one answers with the status 200. *)
Lemma probe_spec (urls : list string) (ms : Z) :
  forall w, exists found w',
    probe env urls (Some ms) w = (Return found, w')
    /\ fs w' = fs w
    /\ match found with
       | Some m3u8Url =>
           exists i,
             urls !! i = Some m3u8Url
             /\ http_head env (calls w + i) m3u8Url = Resolved 200
             /\ (forall j url, (j < i)%nat -> urls !! j = Some url ->
                  http_head env (calls w + j) url <> Resolved 200)
             /\ trace w' = (trace w ++
                             map (fun url => AxiosHead url (Some ms)) (take (S i) urls))%list
       | None =>
           (forall j url, urls !! j = Some url ->
              http_head env (calls w + j) url <> Resolved 200)
           /\ trace w' = (trace w ++ map (fun url => AxiosHead url (Some ms)) urls)%list
       end.
Proof.
  induction urls as [|m3u8Url rest IH]; intros w.
  - exists None, w. cbn. rewrite app_nil_r. repeat split. intros j url H. discriminate H.
  - cbn [probe]. unfold bind at 1. rewrite probe_once.
    destruct (match http_head env (calls w) m3u8Url with
              | Resolved status => status =? 200
              | _ => false
              end) eqn:Hanswer.
    + apply answered_200 in Hanswer.
      eexists (Some m3u8Url), _. split; [reflexivity|]. split; [reflexivity|].
      exists 0%nat. rewrite Nat.add_0_r. repeat split; auto. intros j url Hj. lia.
    + assert (Hnot : http_head env (calls w) m3u8Url <> Resolved 200).
      { intros H. apply answered_200 in H. congruence. }
      match goal with
      | |- context [probe env rest (Some ms) ?w1] =>
          destruct (IH w1) as (found & w' & Hrun & Hfs & Hfound)
      end.
      exists found, w'. split; [exact Hrun|]. split; [exact Hfs|].
      cbn [calls trace] in Hfound. destruct found as [url|].
      * destruct Hfound as (i & Hi & Hok & Hbefore & Htrace).
        exists (S i). replace (calls w + S i)%nat with (S (calls w) + i)%nat by lia.
        repeat split; auto.
        -- intros [|j] u Hj Hu.
           ++ cbn in Hu. injection Hu as <-. rewrite Nat.add_0_r. exact Hnot.
           ++ replace (calls w + S j)%nat with (S (calls w) + j)%nat by lia.
              apply (Hbefore j u); [lia|exact Hu].
        -- rewrite Htrace, <- app_assoc. reflexivity.
      * destruct Hfound as [Hall Htrace]. split.
        -- intros [|j] u Hu.
           ++ cbn in Hu. injection Hu as <-. rewrite Nat.add_0_r. exact Hnot.
           ++ replace (calls w + S j)%nat with (S (calls w) + j)%nat by lia.
              apply (Hall j u Hu).
        -- rewrite Htrace, <- app_assoc. reflexivity.
Qed.

(** X3.  The probing loop returns the first candidate, in the order of the
    list, whose [HEAD] request is answered with the status 200; a rejected
    or unanswered request, or another status, makes it go on to the next
    one; it sends one request per candidate up to the one it returns, and
    it returns nothing only when no candidate answered with 200. *)
Theorem probe_returns_first_working (urls : list string) (ms : Z) (w : world) :
  exists found,
    fst (probe env urls (Some ms) w) = Return found
    /\ match found with
       | Some m3u8Url =>
           exists i,
             urls !! i = Some m3u8Url
             /\ http_head env (calls w + i) m3u8Url = Resolved 200
             /\ (forall j url, (j < i)%nat -> urls !! j = Some url ->
                  http_head env (calls w + j) url <> Resolved 200)
             /\ trace (snd (probe env urls (Some ms) w))
                = (trace w ++
                   map (fun url => AxiosHead url (Some ms)) (take (S i) urls))%list
       | None =>
           (forall j url, urls !! j = Some url ->
              http_head env (calls w + j) url <> Resolved 200)
           /\ trace (snd (probe env urls (Some ms) w))
              = (trace w ++ map (fun url => AxiosHead url (Some ms)) urls)%list
       end.
Proof.
  destruct (probe_spec urls ms w) as (found & w' & Hrun & _ & Hfound).
  exists found. rewrite Hrun. split; [reflexivity|exact Hfound].
Qed.

(** The scraping step of lines 340-377: it does not throw, and what it
    finds is one of the matches in the page it fetched. *)
Lemma scrape_spec (twitchUrl : string) (w : world) :
  exists scraped w',
    try_catch
      (let! pageContent := axios_get env twitchUrl (Some 15000) in
       probe env (regex_m3u8 env pageContent) (Some 5000))
      (fun scrapeError => ret None) w
    = (Return scraped, w')
    /\ fs w' = fs w
    /\ forall m3u8Url, scraped = Some m3u8Url ->
         exists pageContent,
           http_get env (calls w) twitchUrl = Resolved pageContent
           /\ In m3u8Url (regex_m3u8 env pageContent).
Proof.
  cbv [try_catch bind axios_get emit next_call logged]. cbn [fs trace calls].
  destruct (http_get env (calls w) twitchUrl) as [pageContent|message|] eqn:Hpage;
    cbn [settle ret throw].
  - match goal with
    | |- context [probe env ?urls (Some ?ms) ?w1] =>
        destruct (probe_spec urls ms w1) as (found & w' & Hrun & Hfs & Hfound)
    end.
    rewrite Hrun. exists found, w'. split; [reflexivity|]. split; [exact Hfs|].
    intros m3u8Url ->. destruct Hfound as (i & Hi & _).
    exists pageContent. split; [reflexivity|].
    apply list_elem_of_In, list_elem_of_lookup. eauto.
  - eexists None, _. split; [reflexivity|]. split; [reflexivity|]. discriminate.
  - eexists None, _. split; [reflexivity|]. split; [reflexivity|]. discriminate.
Qed.

(** X4.  [extractTwitchM3U8] always settles; it leaves the disk as it is;
    every error it throws starts with "Twitch M3U8 extraction failed: ";
    and a URL it returns is the URL it was given (when that contains
    ".m3u8"), one of the two candidate URLs built from the video
    identifier, or a match found in the page at the URL it was given. *)
Theorem resolver_settles_and_invents_nothing (twitchUrl : string) (w : world) :
  fs (snd (extractTwitchM3U8 env twitchUrl w)) = fs w
  /\ match fst (extractTwitchM3U8 env twitchUrl w) with
     | Return m3u8Url =>
         (JS.includes twitchUrl ".m3u8" = true /\ m3u8Url = twitchUrl)
         \/ (exists videoId,
               extract_video_id twitchUrl = Some videoId
               /\ In m3u8Url (possibleM3U8Urls videoId))
         \/ (exists n pageContent,
               http_get env n twitchUrl = Resolved pageContent
               /\ In m3u8Url (regex_m3u8 env pageContent))
     | Throw message =>
         exists detail, message = "Twitch M3U8 extraction failed: " +:+ detail
     | Diverge => False
     | Crash _ => False
     end.
Proof.
  destruct (extractTwitchM3U8 env twitchUrl w) as [r w'] eqn:Hrun.
  cbn [fst snd]. revert Hrun. unfold extractTwitchM3U8. unfold try_catch at 1.
  destruct (JS.includes twitchUrl ".m3u8") eqn:Hm3u8.
  { intros [= <- <-]. split; [reflexivity|]. left. auto. }
  destruct (extract_video_id twitchUrl) as [videoId|] eqn:Hid.
  2: { cbn [throw]. intros [= <- <-]. split; [reflexivity|]. eauto. }
  unfold bind at 1.
  destruct (probe_spec (possibleM3U8Urls videoId) 10000 w)
    as (found & w1 & Hprobe & Hfs1 & Hfound).
  rewrite Hprobe. destruct found as [m3u8Url|].
  { cbn [ret]. intros [= <- <-]. split; [exact Hfs1|]. right. left.
    exists videoId. split; [reflexivity|].
    destruct Hfound as (i & Hi & _).
    apply list_elem_of_In, list_elem_of_lookup. eauto. }
  unfold bind at 1.
  destruct (scrape_spec twitchUrl w1) as (scraped & w2 & Hscrape & Hfs2 & Hscraped).
  rewrite Hscrape. destruct scraped as [m3u8Url|].
  - cbn [ret]. intros [= <- <-]. split; [congruence|]. right. right.
    destruct (Hscraped m3u8Url eq_refl) as (pageContent & Hpage & Hin). eauto.
  - cbn [throw]. intros [= <- <-]. split; [congruence|]. eauto.
Qed.

End WithEnvironment.

End ResolverFacts.

(** ** The parser and the downloader *)

Module DownloadFacts.
Import Effects Parser Downloader Frames.

(** The variant loop passes over a prefix in which no usable variant line
    follows a marker. *)
Lemma first_stream_url_after (tag streamUrl : string) (post : list string) :
  JS.includes tag STREAM_INF = true ->
  JS.truthy streamUrl && negb (JS.startsWith streamUrl "#") = true ->
  forall pre,
    first_stream_url (pre ++ [tag]) = None ->
    first_stream_url (pre ++ tag :: streamUrl :: post) = Some streamUrl.
Proof.
  intros Htag Husable. induction pre as [|line pre IH]; intros Hnone.
  - cbn. rewrite Htag, Husable. reflexivity.
  - cbn [app first_stream_url] in Hnone |- *.
    destruct (JS.includes line STREAM_INF).
    + destruct pre as [|next pre]; cbn [app] in Hnone |- *.
      * destruct (JS.truthy tag && negb (JS.startsWith tag "#")); [discriminate Hnone|].
        apply (IH Hnone).
      * destruct (JS.truthy next && negb (JS.startsWith next "#")); [discriminate Hnone|].
        apply (IH Hnone).
    + apply (IH Hnone).
Qed.

(** X5.  In a master playlist the variant chosen is the line after the
    first stream-info line that is followed by a line that is not empty
    and does not start with [#]; the parser answers with that line,
    resolved against the base URL, whatever follows it. *)
Theorem first_usable_variant_is_chosen (m3u8Url playlist : string)
    (pre post : list string) (tag streamUrl : string) :
  JS.split_newline playlist = (pre ++ tag :: streamUrl :: post)%list ->
  JS.includes tag STREAM_INF = true ->
  JS.truthy streamUrl = true -> JS.startsWith streamUrl "#" = false ->
  first_stream_url (pre ++ [tag]) = None ->
  parse_playlist m3u8Url playlist = Master (resolve (baseUrl m3u8Url) streamUrl).
Proof.
  intros Hlines Htag Htruthy Hsharp Hnone. unfold parse_playlist. rewrite Hlines.
  replace (isMasterPlaylist (pre ++ tag :: streamUrl :: post)) with true.
  - rewrite (first_stream_url_after tag streamUrl post Htag); auto.
    rewrite Htruthy, Hsharp. reflexivity.
  - symmetry. unfold isMasterPlaylist. rewrite existsb_app. cbn [existsb].
    rewrite Htag. apply orb_true_r.
Qed.

(** X6.  A playlist URL without any slash has an empty base URL, so that
    the lines of the playlist are taken as segment URLs just as they
    are. *)
Theorem base_of_url_without_slash (m3u8Url : string) :
  JS.includes m3u8Url "/" = false ->
  baseUrl m3u8Url = EmptyString
  /\ forall lines, collect_segments (baseUrl m3u8Url) lines []
                   = List.filter is_segment_line lines.
Proof.
  intros Hslash.
  assert (Hbase : baseUrl m3u8Url = EmptyString).
  { unfold baseUrl, JS.lastIndexOf.
    rewrite (ParserFacts.lastIndexOf_absent "/"%char m3u8Url Hslash).
    unfold JS.substring0. cbn. destruct m3u8Url; reflexivity. }
  split; [exact Hbase|]. intros lines.
  rewrite ParserFacts.collect_segments_spec, Hbase. cbn [app].
  induction lines as [|line lines IH]; [reflexivity|]. cbn [List.filter].
  destruct (is_segment_line line); [|exact IH]. cbn [map]. rewrite IH. f_equal.
  unfold resolve. destruct (JS.startsWith line "http"); [reflexivity|].
  reflexivity.
Qed.

Section WithEnvironment.

Variable env : environment.

Lemma write_chunks_footprint (outputPath : string) (data : list (list byte)) :
  forall w,
    let w' := snd (write_chunks outputPath data w) in
    trace w' = trace w /\ calls w' = calls w
    /\ forall path, path <> outputPath -> fs w' !! path = fs w !! path.
Proof.
  induction data as [|chunk data IH]; intros w; [cbn; auto|].
  cbn [write_chunks]. cbv [bind write_chunk get_fs put_fs].
  match goal with
  | |- context [write_chunks outputPath data ?w1] =>
      destruct (IH w1) as (Htrace & Hcalls & Hfs)
  end.
  cbn [trace calls fs] in Htrace, Hcalls, Hfs. cbv zeta.
  rewrite Htrace, Hcalls. repeat split.
  intros path Hpath. rewrite (Hfs path Hpath). apply lookup_insert_ne. congruence.
Qed.

Lemma write_chunks_returns (outputPath : string) (data : list (list byte)) :
  forall w, fst (write_chunks outputPath data w) = Return tt.
Proof.
  induction data as [|chunk data IH]; intros w; [reflexivity|].
  cbn [write_chunks]. cbv [bind write_chunk get_fs put_fs]. apply IH.
Qed.

(** One turn of the loop: one request, with 30 seconds, and nothing on
    disk touched but the output file. *)
Lemma segment_attempt_footprint (outputPath segment : string) (d : Z) (w : world) :
  let w' :=
    snd (try_catch
           (let! segmentResponse := axios_get_stream env segment (Some 30000) in
            pipe outputPath segmentResponse ;;
            ret (d + 1))
           (fun segmentError => ret d) w) in
  trace w' = (trace w ++ [AxiosGet segment true (Some 30000)])%list
  /\ forall path, path <> outputPath -> fs w' !! path = fs w !! path.
Proof.
  cbv [try_catch bind axios_get_stream emit next_call logged pipe].
  cbn [fs trace calls].
  destruct (http_stream env (calls w) segment) as [[data fin]| |]; cbn [settle ret throw];
    [|cbn; auto..].
  cbn [chunks ending].
  match goal with
  | |- context [write_chunks outputPath data ?w1] =>
      pose proof (write_chunks_footprint outputPath data w1) as (Htrace & _ & Hfs);
      pose proof (write_chunks_returns outputPath data w1) as Hret;
      destruct (write_chunks outputPath data w1) as [r w2]
  end.
  cbn [fst snd trace fs] in Htrace, Hfs, Hret. subst r.
  destruct fin; cbn [snd]; auto.
Qed.

Lemma segment_attempt_returns (outputPath segment : string) (d : Z) (w : world) :
  exists d',
    fst (try_catch
           (let! segmentResponse := axios_get_stream env segment (Some 30000) in
            pipe outputPath segmentResponse ;;
            ret (d + 1))
           (fun segmentError => ret d) w) = Return d'.
Proof.
  cbv [try_catch bind axios_get_stream emit next_call logged pipe].
  cbn [fs trace calls].
  destruct (http_stream env (calls w) segment) as [[data fin]| |]; cbn [settle ret throw];
    [|eexists; reflexivity..].
  cbn [chunks ending].
  match goal with
  | |- context [write_chunks outputPath data ?w1] =>
      pose proof (write_chunks_returns outputPath data w1) as Hret;
      destruct (write_chunks outputPath data w1) as [r w2]
  end.
  cbn [fst] in Hret. subst r. destruct fin; eexists; reflexivity.
Qed.

Lemma segment_loop_footprint (outputPath : string) (segments : list string) :
  forall d w,
    let w' := snd (segment_loop env outputPath segments d w) in
    trace w' = (trace w ++ map (fun url => AxiosGet url true (Some 30000)) segments)%list
    /\ forall path, path <> outputPath -> fs w' !! path = fs w !! path.
Proof.
  induction segments as [|segment rest IH]; intros d w.
  - cbn. rewrite app_nil_r. auto.
  - cbn [segment_loop]. rewrite bind_run.
    pose proof (segment_attempt_footprint outputPath segment d w) as [Htrace Hfs].
    destruct (segment_attempt_returns outputPath segment d w) as [d' Hret].
    match goal with
    | |- context [try_catch ?m ?h w] => destruct (try_catch m h w) as [r w1]
    end.
    cbn [fst snd] in Htrace, Hfs, Hret. subst r.
    destruct (IH d' w1) as [Htrace' Hfs']. cbv beta iota zeta in Htrace', Hfs' |- *.
    rewrite Htrace', Htrace, <- app_assoc. split; [reflexivity|].
    intros path Hpath. rewrite (Hfs' path Hpath). auto.
Qed.

(** X7.  Once the output file is open, the downloader requests every
    segment of the list exactly once, in the order of the list and with a
    timeout of 30 seconds, whether the segments before it succeeded or
    failed: no retry, no early stop, and no other request.  When the
    output file cannot be opened, its requests are those for the first
    segments of the list, in order and with the same timeout. *)
Theorem each_segment_is_requested_once
    (segments : list string) (outputPath : string) (w : world) :
  let requests := map (fun url => AxiosGet url true (Some 30000)) in
  let after := trace (snd (download_segments env segments outputPath w)) in
  match open_error env outputPath with
  | None => after = (trace w ++ requests segments)%list
  | Some _ =>
      exists k, (k <= List.length segments)%nat
                /\ after = (trace w ++ requests (take k segments))%list
  end.
Proof.
  intros requests after. subst after.
  destruct (open_error env outputPath) as [message|] eqn:Hopen.
  { rewrite (DownloaderFacts.download_segments_unopened env _ _ _ _ Hopen).
    destruct (DownloaderFacts.segment_loop_unopened_spec env message segments w)
      as (k & Hk & Htrace & _).
    exists k. split; [exact Hk|exact Htrace]. }
  unfold download_segments, createWriteStream. rewrite Hopen.
  cbv [bind get_fs put_fs ret].
  match goal with
  | |- context [segment_loop env outputPath segments 0 ?w1] =>
      destruct (segment_loop_footprint outputPath segments 0 w1) as [Htrace _];
      destruct (segment_loop env outputPath segments 0 w1) as [[d|failure| |failure] w2]
  end; cbn [snd trace] in Htrace |- *; try exact Htrace.
  destruct (d =? 0); exact Htrace.
Qed.

(** X8.  The downloader writes to the output path only: every other file
    on disk is as it was. *)
Theorem download_touches_the_output_only
    (segments : list string) (outputPath path : string) (w : world) :
  path <> outputPath ->
  fs (snd (download_segments env segments outputPath w)) !! path = fs w !! path.
Proof.
  intros Hpath.
  destruct (open_error env outputPath) as [message|] eqn:Hopen.
  { rewrite (DownloaderFacts.download_segments_unopened env _ _ _ _ Hopen).
    destruct (DownloaderFacts.segment_loop_unopened_spec env message segments w)
      as (k & _ & _ & Hfs & _).
    rewrite Hfs. reflexivity. }
  unfold download_segments, createWriteStream. rewrite Hopen.
  cbv [bind get_fs put_fs ret].
  match goal with
  | |- context [segment_loop env outputPath segments 0 ?w1] =>
      destruct (segment_loop_footprint outputPath segments 0 w1) as [_ Hfs];
      destruct (segment_loop env outputPath segments 0 w1) as [[d|failure| |failure] w2]
  end; cbn [snd fs] in Hfs |- *.
  - destruct (d =? 0); cbv [throw ret]; cbn [snd]; rewrite (Hfs path Hpath);
      apply lookup_insert_ne; congruence.
  - rewrite (Hfs path Hpath). apply lookup_insert_ne. congruence.
  - rewrite (Hfs path Hpath). apply lookup_insert_ne. congruence.
  - rewrite (Hfs path Hpath). apply lookup_insert_ne. congruence.
Qed.

(** X27.  When the output file cannot be opened, the downloader writes
    nothing and never returns a count.  The error of the write stream has
    no listener while the loop runs: the process ends with it while the
    first segment request that went out is awaited, which is the first
    one unless [axios] rejected it without sending it.  Only when [axios]
    sent none of the requests does the downloader get as far as the
    listener of line 473, and throw that error. *)
Theorem unopened_output_ends_the_process
    (segments : list string) (outputPath : string) (w : world) (message : string) :
  open_error env outputPath = Some message ->
  let run := download_segments env segments outputPath w in
  fs (snd run) = fs w
  /\ (forall n, fst run <> Return n)
  /\ (fst run = Crash message \/ fst run = Throw message)
  /\ (forall first rest,
        segments = first :: rest ->
        unsent env (calls w) first = false ->
        run = (Crash message,
               {| fs := fs w;
                  trace := trace w ++ [AxiosGet first true (Some 30000)];
                  calls := S (calls w) |}))
  /\ (fst run = Throw message ->
      forall i segment, segments !! i = Some segment ->
        unsent env (calls w + i) segment = true).
Proof.
  intros Hopen run. subst run.
  rewrite (DownloaderFacts.download_segments_unopened env _ _ _ _ Hopen).
  destruct (DownloaderFacts.segment_loop_unopened_spec env message segments w)
    as (k & _ & _ & Hfs & Hresult).
  split; [exact Hfs|]. split; [|split; [|split]].
  - intros n Hreturn. destruct Hresult as [[Hdies _]|[Hthrows _]]; congruence.
  - destruct Hresult as [[Hdies _]|[Hthrows _]]; auto.
  - intros first rest -> Hsent. cbn [segment_loop_unopened].
    cbv [bind emit next_call logged crash]. cbn [fs trace calls]. rewrite Hsent.
    destruct (http_stream env (calls w) first); reflexivity.
  - intros Hthrows. destruct Hresult as [[Hdies _]|(_ & _ & Hunsent)];
      [congruence|exact Hunsent].
Qed.

(** X9.  When the fetch of the playlist is rejected, and when the playlist
    has no segment (the parser's error), [downloadHLS] throws "HLS download
    failed: " followed by the message, after that one request and without
    creating or changing any file. *)
Theorem failure_before_download_writes_nothing
    (depth : nat) (m3u8Url outputPath : string) (w : world) :
  (forall message,
     http_get env (calls w) m3u8Url = Rejected message ->
     downloadHLS env (S depth) m3u8Url outputPath w
     = (Throw ("HLS download failed: " +:+ message), More.requested m3u8Url w))
  /\ (forall playlist message,
        http_get env (calls w) m3u8Url = Resolved playlist ->
        parse_playlist m3u8Url playlist = ParseError message ->
        downloadHLS env (S depth) m3u8Url outputPath w
        = (Throw ("HLS download failed: " +:+ message), More.requested m3u8Url w)).
Proof.
  split.
  - intros message Hget. cbn [downloadHLS].
    cbv [try_catch bind axios_get emit next_call logged]. cbn [calls].
    rewrite Hget. reflexivity.
  - intros playlist message Hget Hparse. cbn [downloadHLS].
    cbv [try_catch bind axios_get emit next_call logged]. cbn [calls].
    rewrite Hget. cbn [settle ret]. rewrite Hparse. reflexivity.
Qed.

(** X10.  On a master playlist [downloadHLS] is [downloadHLS] on the
    chosen variant, started after the request for the master playlist,
    with one more "HLS download failed: " in front of an error. *)
Theorem master_playlist_is_followed
    (depth : nat) (m3u8Url outputPath playlist fullStreamUrl : string) (w : world) :
  http_get env (calls w) m3u8Url = Resolved playlist ->
  parse_playlist m3u8Url playlist = Master fullStreamUrl ->
  downloadHLS env (S depth) m3u8Url outputPath w
  = match downloadHLS env depth fullStreamUrl outputPath (More.requested m3u8Url w) with
    | (Throw message, w') => (Throw ("HLS download failed: " +:+ message), w')
    | settled => settled
    end.
Proof.
  intros Hget Hparse. cbn [downloadHLS].
  cbv [try_catch bind axios_get emit next_call logged]. cbn [calls].
  rewrite Hget. cbn [settle ret fs trace calls]. rewrite Hparse.
  change {| fs := fs w; trace := trace w ++ [AxiosGet m3u8Url false None];
            calls := S (calls w) |} with (More.requested m3u8Url w).
  destruct (downloadHLS env depth fullStreamUrl outputPath (More.requested m3u8Url w))
    as [[n|message| |message] w']; reflexivity.
Qed.

(** X11.  Nothing bounds the chain of master playlists: when the playlist
    at a URL is a master playlist whose chosen variant is that same URL,
    [downloadHLS] fetches it again and again and never settles, whatever
    the depth allowed. *)
Theorem master_loop_never_settles (m3u8Url outputPath playlist : string) :
  (forall n, http_get env n m3u8Url = Resolved playlist) ->
  parse_playlist m3u8Url playlist = Master m3u8Url ->
  forall depth w,
    fst (downloadHLS env depth m3u8Url outputPath w) = Diverge
    /\ trace (snd (downloadHLS env depth m3u8Url outputPath w))
       = (trace w ++ replicate depth (AxiosGet m3u8Url false None))%list
    /\ fs (snd (downloadHLS env depth m3u8Url outputPath w)) = fs w.
Proof.
  intros Hget Hparse. induction depth as [|depth IH]; intros w.
  - cbn. rewrite app_nil_r. auto.
  - rewrite (master_playlist_is_followed depth m3u8Url outputPath playlist m3u8Url w
               (Hget _) Hparse).
    destruct (IH (More.requested m3u8Url w)) as (Hout & Htrace & Hfs).
    destruct (downloadHLS env depth m3u8Url outputPath (More.requested m3u8Url w))
      as [[n|message| |message] w']; cbn [fst snd] in Hout, Htrace, Hfs |- *;
      try discriminate Hout.
    split; [reflexivity|]. split; [|exact Hfs].
    rewrite Htrace. cbn [More.requested trace replicate]. rewrite <- app_assoc. reflexivity.
Qed.

End WithEnvironment.

End DownloadFacts.

(** ** The converter *)

Module ConversionFacts.
Import Effects Converter Frames.

Section WithEnvironment.

Variable env : environment.

(** A run of the tool that gets as far as starting the process. *)
Lemma runFFmpeg_started (inputPath outputPath : string) (args : list string)
    (w : world) (binary : string) (exit : process_exit) files' :
  is_Some (fs w !! inputPath) ->
  ffmpegPath env = Some binary -> JS.truthy binary = true ->
  is_Some (fs w !! binary) ->
  run_process env (calls w) binary args (fs w) = (exit, files') ->
  runFFmpeg env inputPath outputPath args w
  = (match exit with
     | Closed code stdout stderr =>
         if bool_decide (code = Some 0) then
           match files' !! outputPath with
           | Some [] => Throw EMPTY_OUTPUT
           | Some (_ :: _) => Return tt
           | None => Throw NO_OUTPUT
           end
         else Throw (conversion_failed code stderr)
     | SpawnError message => Throw (spawn_failed message)
     | Hangs => Throw TIMEOUT
     end,
     {| fs := files';
        trace := trace w ++
                 [ Console (FFmpegCommand args);
                   Spawn binary args (Some (5 * 60 * 1000)) ] ++
                 match exit with Hangs => [Kill "SIGKILL"] | _ => [] end;
        calls := S (calls w) |}).
Proof.
  intros Hinput Hpath Htruthy Hbinary Hrun.
  cbv [runFFmpeg spawn bind emit existsSync statSync_size get_fs put_fs next_call
       ret throw logged].
  cbn [fs trace calls].
  rewrite (bool_decide_eq_true_2 _ Hinput). cbn [negb fs trace calls].
  rewrite Hpath, Htruthy.
  rewrite (bool_decide_eq_true_2 _ Hbinary). cbn [negb show_path fs trace calls].
  rewrite Hrun. cbn [fs trace calls].
  destruct exit as [code stdout stderr|message|]; cbn [fs trace calls].
  - destruct (bool_decide (code = Some 0)); cbn [fs trace calls].
    + destruct (files' !! outputPath) as [[|b content]|] eqn:Hout.
      * rewrite bool_decide_eq_true_2 by eauto. cbn [fs]. rewrite Hout.
        rewrite <- !app_assoc. reflexivity.
      * rewrite bool_decide_eq_true_2 by eauto. cbn [fs]. rewrite Hout.
        rewrite <- !app_assoc. reflexivity.
      * rewrite bool_decide_eq_false_2 by (intros [? ?]; congruence).
        rewrite <- !app_assoc. reflexivity.
    + rewrite <- !app_assoc. reflexivity.
  - rewrite <- !app_assoc. reflexivity.
  - rewrite <- !app_assoc. reflexivity.
Qed.

Lemma runFFmpeg_no_input (inputPath outputPath : string) (args : list string) (w : world) :
  fs w !! inputPath = None ->
  runFFmpeg env inputPath outputPath args w
  = (Throw ("Input file does not exist: " +:+ inputPath),
     logged (Console (FFmpegCommand args)) w).
Proof.
  intros Hinput.
  cbv [runFFmpeg bind emit existsSync get_fs ret throw]. cbn [logged fs].
  rewrite bool_decide_eq_false_2 by (rewrite Hinput; intros [? ?]; discriminate).
  reflexivity.
Qed.

Lemma runFFmpeg_no_binary (inputPath outputPath : string) (args : list string) (w : world) :
  is_Some (fs w !! inputPath) ->
  More.binary_found env w = false ->
  runFFmpeg env inputPath outputPath args w
  = (Throw ("FFmpeg binary not found at: " +:+ show_path (ffmpegPath env)),
     logged (Console (FFmpegCommand args)) w).
Proof.
  intros Hinput Hbinary. unfold More.binary_found in Hbinary.
  cbv [runFFmpeg bind emit existsSync get_fs ret throw]. cbn [logged fs].
  rewrite (bool_decide_eq_true_2 _ Hinput). cbn [negb].
  destruct (ffmpegPath env) as [binary|]; [|reflexivity].
  destruct (JS.truthy binary); cbn [andb] in Hbinary; [|reflexivity].
  change (fs (logged (Console (FFmpegCommand args)) w)) with (fs w).
  rewrite Hbinary. reflexivity.
Qed.

(** X12.  When the input file is missing, or the binary is, a run of the
    tool throws before any process is started: the disk is as it was, and
    nothing but the console line of the command is added to the trace. *)
Theorem no_process_without_input_and_binary
    (inputPath outputPath : string) (args : list string) (w : world) :
  fs w !! inputPath = None \/ More.binary_found env w = false ->
  exists message,
    runFFmpeg env inputPath outputPath args w
    = (Throw message, logged (Console (FFmpegCommand args)) w)
    /\ (fs w !! inputPath = None ->
        message = "Input file does not exist: " +:+ inputPath).
Proof.
  intros Hmissing. destruct (fs w !! inputPath) as [content|] eqn:Hinput.
  - destruct Hmissing as [Hnone|Hbinary]; [discriminate Hnone|].
    eexists. split; [|discriminate].
    apply runFFmpeg_no_binary; [rewrite Hinput; eauto|exact Hbinary].
  - eexists. split; [apply runFFmpeg_no_input, Hinput|reflexivity].
Qed.

(** When a run of the tool returns, and only then, the conditions of
    success hold, and the disk is as the process left it. *)
Lemma runFFmpeg_returns_iff
    (inputPath outputPath : string) (args : list string) (w : world) :
  fst (runFFmpeg env inputPath outputPath args w) = Return tt
  <-> More.tool_succeeds env inputPath outputPath args w.
Proof.
  unfold More.tool_succeeds. split.
  - intros Hret. destruct (fs w !! inputPath) as [input|] eqn:Hinput.
    2: { rewrite (runFFmpeg_no_input _ _ _ _ Hinput) in Hret. discriminate Hret. }
    assert (Hin : is_Some (fs w !! inputPath)) by (rewrite Hinput; eauto).
    destruct (More.binary_found env w) eqn:Hfound.
    2: { rewrite (runFFmpeg_no_binary _ _ _ _ Hin Hfound) in Hret. discriminate Hret. }
    split; [eauto|]. unfold More.binary_found in Hfound.
    destruct (ffmpegPath env) as [binary|] eqn:Hpath; [|discriminate Hfound].
    apply andb_true_iff in Hfound as [Htruthy Hbinary].
    apply bool_decide_eq_true in Hbinary.
    exists binary. split; [reflexivity|]. split; [exact Htruthy|]. split; [exact Hbinary|].
    destruct (run_process env (calls w) binary args (fs w)) as [exit files'] eqn:Hrun.
    rewrite (runFFmpeg_started inputPath outputPath args w binary exit files'
               Hin Hpath Htruthy Hbinary Hrun) in Hret.
    cbn [fst snd fs] in Hret |- *.
    destruct exit as [code stdout stderr|message|]; try discriminate Hret.
    destruct (bool_decide (code = Some 0)) eqn:Hcode; [|discriminate Hret].
    apply bool_decide_eq_true in Hcode. subst code.
    destruct (files' !! outputPath) as [[|b content]|]; try discriminate Hret.
    split; eauto.
  - intros (Hin & binary & Hpath & Htruthy & Hbinary & Hzero & (b & content & Hout)).
    destruct (run_process env (calls w) binary args (fs w)) as [exit files'] eqn:Hrun.
    rewrite (runFFmpeg_started inputPath outputPath args w binary exit files'
               Hin Hpath Htruthy Hbinary Hrun).
    cbn [fst snd] in Hzero, Hout |- *.
    destruct exit as [[[| |]|] stdout stderr|message|]; try discriminate Hzero.
    cbn. rewrite Hout. reflexivity.
Qed.

(** A run of the tool that returns leaves an output file with bytes. *)
Lemma runFFmpeg_leaves_output (inputPath outputPath : string) (args : list string)
    (w w' : world) :
  runFFmpeg env inputPath outputPath args w = (Return tt, w') ->
  exists b content, fs w' !! outputPath = Some (b :: content).
Proof.
  intros Hreturns.
  destruct (proj1 (runFFmpeg_returns_iff inputPath outputPath args w))
    as (Hin & binary & Hpath & Htruthy & Hbinary & _ & Hout).
  { rewrite Hreturns. reflexivity. }
  destruct (run_process env (calls w) binary args (fs w)) as [exit files'] eqn:Hrun.
  rewrite (runFFmpeg_started inputPath outputPath args w binary exit files'
             Hin Hpath Htruthy Hbinary Hrun) in Hreturns.
  injection Hreturns as _ <-. exact Hout.
Qed.

(** X13.  A run of the tool returns exactly when the input file and the
    binary are there, the process ends with exit code 0, and it leaves an
    output file with at least one byte; that file is then on disk. *)
Theorem tool_run_returns_iff
    (inputPath outputPath : string) (args : list string) (w : world) :
  (fst (runFFmpeg env inputPath outputPath args w) = Return tt
   <-> More.tool_succeeds env inputPath outputPath args w)
  /\ (fst (runFFmpeg env inputPath outputPath args w) = Return tt ->
      exists b content,
        fs (snd (runFFmpeg env inputPath outputPath args w)) !! outputPath
        = Some (b :: content)).
Proof.
  split; [apply runFFmpeg_returns_iff|].
  intros Hret. apply (runFFmpeg_leaves_output inputPath outputPath args w).
  destruct (runFFmpeg env inputPath outputPath args w) as [r w'].
  cbn [fst] in Hret. subst r. reflexivity.
Qed.

(** X14.  A process that is still alive when the timer of five minutes
    fires is killed with SIGKILL and the run throws "FFmpeg conversion
    timeout (5 minutes)"; what the process had written stays on disk. *)
Theorem hanging_tool_is_killed
    (inputPath outputPath : string) (args : list string) (w : world)
    (binary : string) files' :
  is_Some (fs w !! inputPath) ->
  ffmpegPath env = Some binary -> JS.truthy binary = true ->
  is_Some (fs w !! binary) ->
  run_process env (calls w) binary args (fs w) = (Hangs, files') ->
  fst (runFFmpeg env inputPath outputPath args w) = Throw TIMEOUT
  /\ trace (snd (runFFmpeg env inputPath outputPath args w))
     = (trace w ++ [ Console (FFmpegCommand args);
                     Spawn binary args (Some 300000);
                     Kill "SIGKILL" ])%list
  /\ fs (snd (runFFmpeg env inputPath outputPath args w)) = files'.
Proof.
  intros Hin Hpath Htruthy Hbinary Hrun.
  rewrite (runFFmpeg_started inputPath outputPath args w binary Hangs files'
             Hin Hpath Htruthy Hbinary Hrun).
  repeat split.
Qed.

Ltac run_attempt R :=
  rewrite ConverterFacts.attempt_run;
  match goal with
  | |- context [runFFmpeg ?e ?i ?o ?a ?before] =>
      let Hv := fresh "Hsurvives" in
      pose proof (ConverterFacts.survives_runFFmpeg e i o a before) as Hv;
      destruct (runFFmpeg e i o a before) as [[[]|?message| |?message] ?after] eqn:R;
      [| | |exfalso; eapply Hv; reflexivity]
  end.

Lemma convert_leaves_output (inputPath outputPath : string) (w w' : world) :
  convertTsToMp4 env inputPath outputPath w = (Return tt, w') ->
  exists b content, fs w' !! outputPath = Some (b :: content).
Proof.
  unfold convertTsToMp4. rewrite bind_run. run_attempt R1.
  { cbn [ret]. intros [= <-]. apply (runFFmpeg_leaves_output _ _ _ _ _ R1). }
  2: { discriminate. }
  rewrite bind_run. unfold emit at 1. unfold ret at 1. cbn match.
  rewrite bind_run. run_attempt R2.
  { cbn [ret]. intros [= <-]. apply (runFFmpeg_leaves_output _ _ _ _ _ R2). }
  2: { discriminate. }
  rewrite bind_run. unfold emit at 1. unfold ret at 1. cbn match.
  rewrite bind_run. run_attempt R3.
  { cbn [ret]. intros [= <-]. apply (runFFmpeg_leaves_output _ _ _ _ _ R3). }
  2: { discriminate. }
  rewrite bind_run. unfold emit at 1. unfold throw at 1. discriminate.
Qed.

(** X15.  When [convertTsToMp4] returns, the output file is on disk and
    has at least one byte. *)
Theorem conversion_leaves_output (inputPath outputPath : string) (w : world) :
  fst (convertTsToMp4 env inputPath outputPath w) = Return tt ->
  exists b content,
    fs (snd (convertTsToMp4 env inputPath outputPath w)) !! outputPath
    = Some (b :: content).
Proof.
  intros Hret. apply (convert_leaves_output inputPath outputPath w).
  destruct (convertTsToMp4 env inputPath outputPath w) as [r w'].
  cbn [fst] in Hret. subst r. reflexivity.
Qed.

End WithEnvironment.

End ConversionFacts.

(** ** The route *)

Module RouteFacts.
Import Effects Frames Traces.

Section WithEnvironment.

Variable env : environment.

Lemma diagnose_never_throws (tsPath : string) :
  never_throws (Diagnostics.diagnoseTsFile env tsPath).
Proof.
  unfold Diagnostics.diagnoseTsFile. apply try_catch_never_throws.
  intros message. apply never_throws_ret.
Qed.

(** X16.  The diagnosis never throws, whatever happens to the probing
    process; and on a raw stream file that is missing or empty it returns
    at once: no process is started and nothing changes. *)
Theorem diagnosis_is_advisory (tsPath : string) (w : world) :
  (forall message, fst (Diagnostics.diagnoseTsFile env tsPath w) <> Throw message)
  /\ (fs w !! tsPath = None \/ fs w !! tsPath = Some [] ->
      Diagnostics.diagnoseTsFile env tsPath w = (Return tt, w)).
Proof.
  split; [apply diagnose_never_throws|].
  cbv [Diagnostics.diagnoseTsFile try_catch bind statSync_size get_fs].
  intros [Hfile|Hfile]; rewrite Hfile; reflexivity.
Qed.

Lemma settles_convertTsToMp4 (inputPath outputPath : string) :
  settles (Converter.convertTsToMp4 env inputPath outputPath).
Proof.
  unfold Converter.convertTsToMp4, Converter.attempt.
  repeat first [apply ConverterFacts.settles_runFFmpeg | settles_step].
Qed.

Lemma survives_convertTsToMp4 (inputPath outputPath : string) :
  survives (Converter.convertTsToMp4 env inputPath outputPath).
Proof.
  unfold Converter.convertTsToMp4, Converter.attempt.
  repeat first [apply ConverterFacts.survives_runFFmpeg | survives_step].
Qed.

Lemma survives_diagnoseTsFile (tsPath : string) :
  survives (Diagnostics.diagnoseTsFile env tsPath).
Proof.
  unfold Diagnostics.diagnoseTsFile.
  repeat first [apply survives_statSync_size | apply survives_spawn | survives_step].
Qed.

(** The step from the conversion to the final path, name and format. *)
Lemma fall_back_spec (tsPath mp4Path tsFileName mp4FileName : string) (w : world) :
  exists w',
    match Converter.convertTsToMp4 env tsPath mp4Path w with
    | (Return _, w1) =>
        Server.convert_or_fall_back env tsPath mp4Path tsFileName mp4FileName w
        = (Return (mp4Path, mp4FileName, "MP4", true), w')
        /\ fs w' = delete tsPath (fs w1) /\ trace w' = trace w1
    | (Throw _, w1) =>
        Server.convert_or_fall_back env tsPath mp4Path tsFileName mp4FileName w
        = (Return (tsPath, tsFileName, "TS", false), w')
        /\ w' = w1
    | (Diverge, _) => False
    | (Crash _, _) => False
    end.
Proof.
  pose proof (settles_convertTsToMp4 tsPath mp4Path w) as Hsettles.
  pose proof (survives_convertTsToMp4 tsPath mp4Path w) as Hsurvives.
  pose proof (ConversionFacts.convert_leaves_output env tsPath mp4Path w) as Hout.
  destruct (Converter.convertTsToMp4 env tsPath mp4Path w)
    as [[[]|message| |message] w1] eqn:Hrun;
    cbn [fst] in Hsettles, Hsurvives;
    [| |congruence|exfalso; eapply Hsurvives; reflexivity].
  - destruct (Hout w1 eq_refl) as (b & content & Hmp4).
    unfold Server.convert_or_fall_back. unfold try_catch at 1.
    rewrite bind_run, Hrun.
    cbv [bind existsSync get_fs ret try_catch unlinkSync put_fs throw].
    rewrite bool_decide_eq_true_2 by (rewrite Hmp4; eauto).
    destruct (fs w1 !! tsPath) as [ts|] eqn:Hts.
    + eexists. split; [reflexivity|]. split; reflexivity.
    + eexists. split; [reflexivity|]. split; [|reflexivity].
      cbn [fs]. symmetry. apply delete_id. exact Hts.
  - unfold Server.convert_or_fall_back. unfold try_catch at 1.
    rewrite bind_run, Hrun. eexists. split; reflexivity.
Qed.

(** X17.  The step from the conversion to the deliverable never throws and
    always settles.  When the conversion returns, the deliverable is the
    MP4 file and the raw stream file is removed from the disk, and nothing
    else is; when the conversion throws, the deliverable is the raw stream
    file and the disk is left as the conversion left it, with whatever the
    tool wrote at the MP4 path. *)
Theorem conversion_failure_falls_back
    (tsPath mp4Path tsFileName mp4FileName : string) (w : world) :
  let conversion := Converter.convertTsToMp4 env tsPath mp4Path w in
  let step := Server.convert_or_fall_back env tsPath mp4Path tsFileName mp4FileName w in
  match fst conversion with
  | Return _ =>
      fst step = Return (mp4Path, mp4FileName, "MP4", true)
      /\ fs (snd step) = delete tsPath (fs (snd conversion))
  | Throw _ =>
      step = (Return (tsPath, tsFileName, "TS", false), snd conversion)
  | Diverge => False
  | Crash _ => False
  end.
Proof.
  cbv zeta.
  destruct (fall_back_spec tsPath mp4Path tsFileName mp4FileName w) as [w' Hstep].
  destruct (Converter.convertTsToMp4 env tsPath mp4Path w) as [[[]|message| |message] w1];
    cbn [fst snd]; [| |exact Hstep..].
  - destruct Hstep as (Hrun & Hfs & _). rewrite Hrun. auto.
  - destruct Hstep as [Hrun ->]. exact Hrun.
Qed.

Lemma clean_up_quiet (paths : list string) :
  forall w,
    trace (snd (Server.clean_up paths w)) = trace w
    /\ calls (snd (Server.clean_up paths w)) = calls w.
Proof.
  induction paths as [|first rest IH]; intros w; [auto|].
  cbn [Server.clean_up].
  cbv [bind existsSync get_fs ret try_catch unlinkSync put_fs throw].
  destruct (bool_decide (is_Some (fs w !! first)));
    [destruct (fs w !! first)|];
    match goal with
    | |- context [Server.clean_up rest ?w1] =>
        destruct (IH w1) as [Htrace Hcalls]; split; [exact Htrace|exact Hcalls]
    end.
Qed.















(** X19.  A Twitch page URL in which neither "/videos/" nor "/v/" is
    followed by a digit makes the route answer 500 with "Twitch M3U8
    extraction failed: Could not extract video ID ...", without any
    request; the clean-up still removes what was at the raw stream path
    and at the MP4 path before, and nothing else. *)
Theorem page_without_video_id (depth : nat) (vodUrl fileName : string) (w : world) :
  Server.is_twitch_page vodUrl = true ->
  Resolver.match_digits_after "/videos/" vodUrl = None ->
  Resolver.match_digits_after "/v/" vodUrl = None ->
  let answer := Server.download_vod env depth (JS.Str vodUrl) (JS.Str fileName) w in
  fst answer
  = Return (Server.Status500
              ("Twitch M3U8 extraction failed: " +:+ Resolver.NO_ID)
              "HLS download or MP4 conversion failed"
              Server.POSSIBLE_CAUSES Server.SUGGESTIONS)
  /\ trace (snd answer) = trace w
  /\ fs (snd answer) !! Server.tsPath_of env vodUrl fileName = None
  /\ fs (snd answer) !! Server.mp4Path_of env vodUrl fileName = None
  /\ forall path,
       path <> Server.tsPath_of env vodUrl fileName ->
       path <> Server.mp4Path_of env vodUrl fileName ->
       fs (snd answer) !! path = fs w !! path.
Proof.
  intros Hpage Hvideos Hv answer. subst answer.
  unfold Server.is_twitch_page in Hpage.
  apply andb_true_iff in Hpage as [Htwitch Hm3u8]. apply negb_true_iff in Hm3u8.
  assert (Htruthy : JS.truthy vodUrl = true).
  { destruct vodUrl; [discriminate Htwitch|reflexivity]. }
  assert (Hid : Resolver.extract_video_id vodUrl = None).
  { unfold Resolver.extract_video_id. rewrite Hvideos, Hv.
    destruct (JS.includes vodUrl "twitch.tv/videos/"); [reflexivity|].
    destruct (JS.includes vodUrl "twitch.tv/" && JS.includes vodUrl "/v/"); [reflexivity|].
    destruct (Resolver.all_digits vodUrl) eqn:Hdigits; [|reflexivity].
    unfold Resolver.all_digits in Hdigits. apply andb_true_iff in Hdigits as [_ Hd].
    apply String.eqb_eq in Hd.
    rewrite (ResolverFacts.digits_have_no_letter vodUrl Hd) in Htwitch.
    discriminate Htwitch. }
  destruct (Server.download_vod env depth (JS.Str vodUrl) (JS.Str fileName) w)
    as [r final] eqn:Hrun.
  cbn [fst snd]. revert Hrun.
  unfold Server.download_vod, Server.tsPath_of, Server.mp4Path_of.
  rewrite PipelineFacts.baseFileName_of_strings.
  cbn [JS.truthy_value]. rewrite Htruthy. cbn [negb].
  unfold try_catch at 1. rewrite bind_run.
  unfold Server.try_block, Server.pipeline at 1. rewrite bind_run.
  unfold Server.resolve_source, Server.is_twitch_page. rewrite Htwitch, Hm3u8. cbn [negb andb].
  unfold Resolver.extractTwitchM3U8, try_catch. rewrite Hm3u8, Hid. cbn [throw].
  rewrite bind_run.
  match goal with
  | |- context [Server.clean_up ?paths w] =>
      destruct (PipelineFacts.clean_up_spec paths w) as (w' & Hclean & Hgone & Hkept);
      pose proof (clean_up_quiet paths w) as [Htrace _]
  end.
  rewrite Hclean in Htrace |- *. cbn [snd fst ret] in Htrace |- *.
  intros [= <- <-].
  split; [reflexivity|]. split; [exact Htrace|].
  split; [apply Hgone; cbn; auto|]. split; [apply Hgone; cbn; auto|].
  intros path Hts Hmp4. apply Hkept. cbn. intros [H|[H|[]]]; congruence.
Qed.

(** X20.  The clean-up always returns; it leaves none of its paths on
    disk, touches no other file, and makes no request. *)
Theorem clean_up_removes_its_paths_only (paths : list string) (w : world) :
  fst (Server.clean_up paths w) = Return tt
  /\ (forall filePath, In filePath paths ->
      fs (snd (Server.clean_up paths w)) !! filePath = None)
  /\ (forall filePath, ~ In filePath paths ->
      fs (snd (Server.clean_up paths w)) !! filePath = fs w !! filePath)
  /\ trace (snd (Server.clean_up paths w)) = trace w.
Proof.
  destruct (PipelineFacts.clean_up_spec paths w) as (w' & Hclean & Hgone & Hkept).
  pose proof (clean_up_quiet paths w) as [Htrace _].
  rewrite Hclean in Htrace |- *. auto.
Qed.

(** X21.  Every request of the resolver, every segment request and every
    process of the converter is given a timeout or a timer: among the
    events they add to the trace there is no call without a bound. *)
Theorem calls_with_a_bound (twitchUrl : string) (segments : list string)
    (inputPath outputPath : string) :
  emits Spec.bounded (Resolver.extractTwitchM3U8 env twitchUrl)
  /\ emits Spec.bounded (Downloader.download_segments env segments outputPath)
  /\ emits Spec.bounded (Converter.convertTsToMp4 env inputPath outputPath).
Proof.
  split; [apply PipelineFacts.bounded_extractTwitchM3U8|].
  split; [apply PipelineFacts.bounded_download_segments|].
  apply PipelineFacts.bounded_convertTsToMp4.
Qed.

End WithEnvironment.

Lemma substring_prefix (name rest : string) :
  String.substring 0 (String.length name) (name +:+ rest) = name.
Proof.
  induction name as [|c name IH]; [destruct rest; reflexivity|].
  change (String c name +:+ rest) with (String c (name +:+ rest)).
  cbn [String.length String.substring]. rewrite IH. reflexivity.
Qed.

Lemma substring_suffix (name : string) (c : ascii) (ext : string) (m : nat) :
  String.substring (S (String.length name)) m (name +:+ String c ext)
  = String.substring 0 m ext.
Proof.
  induction name as [|a name IH]; [reflexivity|].
  change (String a name +:+ String c ext) with (String a (name +:+ String c ext)).
  cbn [String.length]. rewrite <- IH. reflexivity.
Qed.

Lemma substring_whole (s : string) (n : nat) :
  (String.length s <= n)%nat -> String.substring 0 n s = s.
Proof.
  revert n. induction s as [|c s IH]; intros n Hn; [destruct n; reflexivity|].
  destruct n as [|n]; [cbn in Hn; lia|].
  cbn [String.substring]. rewrite IH by (cbn in Hn; lia). reflexivity.
Qed.

Lemma length_append (s t : string) :
  String.length (s +:+ t) = (String.length s + String.length t)%nat.
Proof.
  induction s as [|c s IH]; [reflexivity|].
  change (String c s +:+ t) with (String c (s +:+ t)). cbn [String.length].
  rewrite IH. reflexivity.
Qed.

(** X22.  A final extension is cut off a file name: when [ext] is not
    empty and contains no dot and no slash, [name.ext] becomes [name]; a
    file name without a dot is left as it is. *)
Theorem extension_is_stripped (name ext : string) :
  (JS.truthy ext = true -> JS.includes ext "." = false -> JS.includes ext "/" = false ->
   Server.strip_extension (name +:+ "." +:+ ext) = name)
  /\ (JS.includes name "." = false -> Server.strip_extension name = name).
Proof.
  split.
  - intros Htruthy Hdot Hslash. unfold Server.strip_extension, JS.lastIndexOf.
    change ("." +:+ ext) with (String "."%char ext).
    rewrite (ParserFacts.lastIndexOf_last "."%char ext Hdot), Z.add_0_l.
    replace (Z.of_nat (String.length name) <? 0) with false
      by (symmetry; apply Z.ltb_ge; lia).
    replace (Z.to_nat (Z.of_nat (String.length name) + 1))
      with (S (String.length name)) by lia.
    rewrite substring_suffix, substring_whole
      by (rewrite length_append; cbn [String.length]; lia).
    rewrite Htruthy, Hslash. cbn [andb negb]. unfold JS.substring0.
    rewrite Nat2Z.id. apply substring_prefix.
  - intros Hdot. unfold Server.strip_extension, JS.lastIndexOf.
    rewrite (ParserFacts.lastIndexOf_absent "."%char name Hdot). reflexivity.
Qed.

End RouteFacts.

(** ** The packet check *)

Module PacketFacts.
Import PacketCheck.

Lemma sync_loop_done (turns : nat) (i read : Z) (buf : list byte) (v : Z) :
  read <= i -> sync_loop turns i read buf v = v.
Proof.
  intros H. destruct turns; [reflexivity|]. cbn [sync_loop].
  replace (i <? read) with false by (symmetry; apply Z.ltb_ge; lia). reflexivity.
Qed.

(** Turns beyond the end of what was read change nothing. *)
Lemma sync_loop_more (turns extra : nat) :
  forall (i read : Z) (buf : list byte) (v : Z),
    read <= i + 188 * Z.of_nat turns ->
    sync_loop (turns + extra) i read buf v = sync_loop turns i read buf v.
Proof.
  induction turns as [|turns IH]; intros i read buf v H.
  - cbn [Nat.add sync_loop]. apply sync_loop_done. lia.
  - cbn [Nat.add sync_loop]. destruct (i <? read); [|reflexivity].
    apply IH. lia.
Qed.

Lemma bytesRead_range (content : list byte) :
  0 <= bytesRead content <= 564
  /\ bytesRead content <= Z.of_nat (List.length content).
Proof. unfold bytesRead, BUFFER_LENGTH. lia. Qed.

Lemma buffer_lookup (content : list byte) (i : nat) :
  (i < 564)%nat -> (i < List.length content)%nat ->
  buffer content !! i = content !! i.
Proof.
  intros Hi Hlen. unfold buffer, BUFFER_LENGTH.
  change (Z.to_nat (188 * 3)) with 564%nat.
  rewrite lookup_app_l by (rewrite length_take; lia).
  apply lookup_take_lt. exact Hi.
Qed.

(** X23.  Of a raw stream file of at least 564 bytes the check counts the
    sync bytes 0x47 at the offsets 0, 188 and 376, out of 3 expected
    packets, whatever follows in the file; the verdict is "no valid
    packets" for none, "some invalid" for one or two, and "valid
    structure" for three; and more turns of the loop would count the
    same. *)
Theorem packet_check_of_three_packets (content : list byte) :
  (564 <= List.length content)%nat ->
  let count := More.sync_at content 0 + More.sync_at content 188
               + More.sync_at content 376 in
  validPackets content = count
  /\ expected content = 3
  /\ check content
     = (if count =? 0 then NoValidPackets
        else if count <? 3 then SomeInvalid else ValidStructure)
  /\ forall extra,
       sync_loop (3 + extra) 0 (bytesRead content) (buffer content) 0
       = validPackets content.
Proof.
  intros Hlen count.
  assert (Hread : bytesRead content = 564) by (unfold bytesRead, BUFFER_LENGTH; lia).
  assert (Hvalid : validPackets content = count).
  { unfold validPackets. rewrite Hread. cbn [sync_loop].
    change (0 <? 564) with true. change (0 + 188 <? 564) with true.
    change (0 + 188 + 188 <? 564) with true. cbv iota.
    change (Z.to_nat 0) with 0%nat. change (Z.to_nat (0 + 188)) with 188%nat.
    change (Z.to_nat (0 + 188 + 188)) with 376%nat.
    rewrite !buffer_lookup by lia.
    unfold count, More.sync_at.
    destruct (content !! 0%nat) as [b0|]; [destruct (Byte.eqb b0 x47)|];
      (destruct (content !! 188%nat) as [b1|]; [destruct (Byte.eqb b1 x47)|]);
      (destruct (content !! 376%nat) as [b2|]; [destruct (Byte.eqb b2 x47)|]);
      reflexivity. }
  assert (Hexpected : expected content = 3) by (unfold expected; rewrite Hread; reflexivity).
  split; [exact Hvalid|]. split; [exact Hexpected|]. split.
  - unfold check. rewrite Hvalid, Hexpected. reflexivity.
  - intros extra. unfold validPackets. apply sync_loop_more. rewrite Hread. lia.
Qed.

(** X24.  Of a file shorter than one packet whose first byte is the sync
    byte, the check counts 1 valid packet out of 0 expected, and its
    verdict is "valid structure": the loop looks at offset 0 of a partial
    packet that the expected number leaves out. *)
Theorem partial_packet_is_counted (rest : list byte) :
  (List.length rest < 187)%nat ->
  validPackets (x47%byte :: rest) = 1
  /\ expected (x47%byte :: rest) = 0
  /\ check (x47%byte :: rest) = ValidStructure.
Proof.
  intros Hlen.
  assert (Hread : bytesRead (x47%byte :: rest) = Z.of_nat (S (List.length rest)))
    by (unfold bytesRead, BUFFER_LENGTH; cbn [List.length]; lia).
  assert (Hvalid : validPackets (x47%byte :: rest) = 1).
  { unfold validPackets. rewrite Hread. cbn [sync_loop].
    replace (0 <? Z.of_nat (S (List.length rest))) with true
      by (symmetry; apply Z.ltb_lt; lia).
    replace (0 + 188 <? Z.of_nat (S (List.length rest))) with false
      by (symmetry; apply Z.ltb_ge; lia).
    cbv iota. change (Z.to_nat 0) with 0%nat.
    rewrite (buffer_lookup _ 0) by (cbn [List.length]; lia).
    reflexivity. }
  assert (Hexpected : expected (x47%byte :: rest) = 0).
  { unfold expected. rewrite Hread. apply Z.div_small. lia. }
  split; [exact Hvalid|]. split; [exact Hexpected|].
  unfold check. rewrite Hvalid, Hexpected. reflexivity.
Qed.

End PacketFacts.

(** ** From the downloaded stream to the answer *)

Module DeliveryFacts.
Import Effects Frames.

Section WithEnvironment.

Variable env : environment.
Variable tsPath : string.
Variable content : list byte.

(** The processes leave the raw stream file alone. *)
Hypothesis process_keeps_stream :
  forall n command args files,
    snd (run_process env n command args files) !! tsPath = files !! tsPath.

Let stream_kept (files : gmap string (list byte)) : Prop :=
  files !! tsPath = Some content.

Lemma keeps_spawn command args timer :
  keeps stream_kept (Converter.spawn env command args timer).
Proof.
  intros w Hkept. unfold stream_kept in *.
  cbv [Converter.spawn bind emit next_call get_fs put_fs logged ret diverge].
  cbn [fs trace calls].
  pose proof (process_keeps_stream (calls w) command args (fs w)) as Hprocess.
  destruct (run_process env (calls w) command args (fs w)) as [exit files'].
  cbn [snd] in Hprocess.
  destruct exit, timer; cbn [snd fs]; congruence.
Qed.

Lemma keeps_runFFmpeg inputPath outputPath args :
  keeps stream_kept (Converter.runFFmpeg env inputPath outputPath args).
Proof.
  unfold Converter.runFFmpeg.
  repeat first
    [ apply keeps_existsSync | apply keeps_statSync_size | apply keeps_spawn
    | keeps_step ].
Qed.

Lemma keeps_convertTsToMp4 inputPath outputPath :
  keeps stream_kept (Converter.convertTsToMp4 env inputPath outputPath).
Proof.
  unfold Converter.convertTsToMp4, Converter.attempt.
  repeat first [apply keeps_runFFmpeg | keeps_step].
Qed.

Lemma keeps_diagnoseTsFile :
  keeps stream_kept (Diagnostics.diagnoseTsFile env tsPath).
Proof.
  unfold Diagnostics.diagnoseTsFile.
  repeat first [apply keeps_statSync_size | apply keeps_spawn | keeps_step].
Qed.

(** X25.  Once the raw stream file is on disk, and as long as the
    processes leave it alone, the rest of the route cannot fail: it
    answers with the MP4 file, which then has at least one byte, the raw
    stream file being removed, or with the raw stream file itself, of
    unchanged content; in both cases with the number of segments it was
    given.  It gives no answer only when the probing process of the
    diagnosis never ends. *)
Theorem downloaded_stream_is_delivered
    (downloadedSegments : Z) (mp4Path tsFileName mp4FileName : string) (w : world) :
  fs w !! tsPath = Some content ->
  tsPath <> mp4Path ->
  let run :=
    Server.check_and_convert env downloadedSegments tsPath mp4Path
      tsFileName mp4FileName w in
  match fst run with
  | Return body =>
      Server.segments_downloaded body = downloadedSegments
      /\ ((Server.format body = "MP4"
           /\ Server.path body = mp4Path /\ Server.filename body = mp4FileName
           /\ 0 < Server.size body
           /\ fs (snd run) !! mp4Path <> None
           /\ fs (snd run) !! tsPath = None
           /\ Server.conversion_info body
              = Some (Z.of_nat (List.length content), Server.size body))
          \/ (Server.format body = "TS"
              /\ Server.path body = tsPath /\ Server.filename body = tsFileName
              /\ Server.size body = Z.of_nat (List.length content)
              /\ fs (snd run) !! tsPath = Some content
              /\ Server.conversion_info body = None))
  | Throw _ => False
  | Diverge => fst (Diagnostics.diagnoseTsFile env tsPath w) = Diverge
  | Crash _ => False
  end.
Proof.
  intros Hts Hpaths run. subst run.
  destruct (Server.check_and_convert env downloadedSegments tsPath mp4Path
              tsFileName mp4FileName w) as [r final] eqn:Hrun.
  cbn [fst snd]. revert Hrun. unfold Server.check_and_convert.
  rewrite bind_run.
  replace (existsSync tsPath w) with (@Return bool true, w)
    by (cbv [existsSync bind get_fs ret]; rewrite bool_decide_eq_true_2; eauto).
  cbn [negb]. rewrite bind_run.
  replace (statSync_size tsPath w) with (Return (Z.of_nat (List.length content)), w)
    by (cbv [statSync_size bind get_fs ret]; rewrite Hts; reflexivity).
  rewrite bind_run.
  pose proof (keeps_diagnoseTsFile w Hts) as Hts2.
  pose proof (RouteFacts.diagnose_never_throws env tsPath w) as Hdiagnose.
  pose proof (RouteFacts.survives_diagnoseTsFile env tsPath w) as Hsurvives.
  destruct (Diagnostics.diagnoseTsFile env tsPath w) as [[[]|message| |message] w2];
    cbn [fst snd] in Hts2, Hdiagnose, Hsurvives.
  2: { exfalso. apply (Hdiagnose message). reflexivity. }
  2: { intros [= <- <-]. reflexivity. }
  2: { exfalso. apply (Hsurvives message). reflexivity. }
  rewrite bind_run.
  destruct (RouteFacts.fall_back_spec env tsPath mp4Path tsFileName mp4FileName w2)
    as [w3 Hstep].
  pose proof (keeps_convertTsToMp4 tsPath mp4Path w2 Hts2) as Hts3.
  pose proof (ConversionFacts.convert_leaves_output env tsPath mp4Path w2) as Hout.
  destruct (Converter.convertTsToMp4 env tsPath mp4Path w2)
    as [[[]|message| |message] wc];
    cbn [snd] in Hts3; [| |destruct Hstep..].
  - destruct Hstep as (Hstep & Hfs & _). rewrite Hstep. cbv beta iota.
    destruct (Hout wc eq_refl) as (b & output & Hmp4).
    assert (Hmp4' : fs w3 !! mp4Path = Some (b :: output)).
    { rewrite Hfs, lookup_delete_ne by exact Hpaths. exact Hmp4. }
    rewrite bind_run.
    replace (statSync_size mp4Path w3) with (Return (Z.of_nat (List.length (b :: output))), w3)
      by (cbv [statSync_size bind get_fs ret]; rewrite Hmp4'; reflexivity).
    cbv [ret]. intros [= <- <-]. cbn [Server.segments_downloaded Server.format
      Server.path Server.filename Server.size Server.conversion_info].
    split; [reflexivity|]. left.
    split; [reflexivity|]. split; [reflexivity|]. split; [reflexivity|].
    split; [cbn [List.length]; lia|].
    split; [rewrite Hmp4'; discriminate|].
    split; [rewrite Hfs; apply lookup_delete_eq|reflexivity].
  - destruct Hstep as [Hstep ->]. rewrite Hstep. cbv beta iota.
    rewrite bind_run.
    replace (statSync_size tsPath wc) with (Return (Z.of_nat (List.length content)), wc)
      by (cbv [statSync_size bind get_fs ret]; rewrite Hts3; reflexivity).
    cbv [ret]. intros [= <- <-]. cbn [Server.segments_downloaded Server.format
      Server.path Server.filename Server.size Server.conversion_info].
    split; [reflexivity|]. right.
    split; [reflexivity|]. split; [reflexivity|]. split; [reflexivity|].
    split; [reflexivity|]. split; [exact Hts3|reflexivity].
Qed.

End WithEnvironment.

End DeliveryFacts.

(** ** The hypotheses of the properties above, at inputs *)

Module Instances.
Import Effects.

Lemma bare_id_is_not_resolved_witness :
  Server.resolve_source Examples.offline "123456789" Examples.start
  = (Return "123456789", Examples.start).
Proof.
  apply (ResolverFacts.bare_id_is_not_resolved Examples.offline "123456789" Examples.start).
  reflexivity.
Defined.

Lemma first_usable_variant_is_chosen_witness :
  Parser.parse_playlist "https://host/vod/master.m3u8" More.master_of_two
  = Parser.Master "https://host/vod/720p/index.m3u8".
Proof.
  apply (DownloadFacts.first_usable_variant_is_chosen
           "https://host/vod/master.m3u8" More.master_of_two
           [ "#EXTM3U"; "#EXT-X-STREAM-INF:BANDWIDTH=2560000"; "# 1080p is not there" ]
           [ "#EXT-X-STREAM-INF:BANDWIDTH=640000"; "360p/index.m3u8" ]
           "#EXT-X-STREAM-INF:BANDWIDTH=1280000" "720p/index.m3u8");
    reflexivity.
Defined.

Lemma base_of_url_without_slash_witness :
  Parser.baseUrl "playlist.m3u8" = EmptyString.
Proof.
  apply (DownloadFacts.base_of_url_without_slash "playlist.m3u8"). reflexivity.
Defined.

Lemma download_touches_the_output_only_witness :
  fs (snd (Downloader.download_segments Examples.flaky Examples.two_segments
             "/app/downloads/out.ts" Examples.start)) !! "/bin/ffmpeg"
  = Some [x7f]%byte.
Proof.
  rewrite (DownloadFacts.download_touches_the_output_only Examples.flaky
             Examples.two_segments "/app/downloads/out.ts" "/bin/ffmpeg" Examples.start).
  - reflexivity.
  - discriminate.
Defined.

Lemma unopened_output_ends_the_process_witness :
  fst (Downloader.download_segments Examples.without_sub Examples.two_segments
         "/app/downloads/sub/clip.ts" Examples.start)
  = Crash "ENOENT: no such file or directory, open '/app/downloads/sub/clip.ts'".
Proof.
  destruct (DownloadFacts.unopened_output_ends_the_process Examples.without_sub
              Examples.two_segments "/app/downloads/sub/clip.ts" Examples.start
              "ENOENT: no such file or directory, open '/app/downloads/sub/clip.ts'"
              eq_refl) as (_ & _ & _ & Hfirst & _).
  rewrite (Hfirst "https://host/vod/seg0.ts" ["https://host/vod/seg1.ts"]
             eq_refl eq_refl).
  reflexivity.
Defined.

Lemma master_playlist_is_followed_witness :
  fst (Downloader.downloadHLS More.nested 2 "https://host/vod/master.m3u8"
         "/app/downloads/v.ts" Examples.start)
  = Throw "HLS download failed: HLS download failed: No segments found in playlist".
Proof.
  rewrite (DownloadFacts.master_playlist_is_followed More.nested 1
             "https://host/vod/master.m3u8" "/app/downloads/v.ts"
             More.master_of_two "https://host/vod/720p/index.m3u8" Examples.start).
  - reflexivity.
  - reflexivity.
  - reflexivity.
Defined.

Lemma master_loop_never_settles_witness :
  fst (Downloader.downloadHLS More.looping 7 "https://host/vod/loop.m3u8"
         "/app/downloads/v.ts" Examples.start) = Diverge.
Proof.
  apply (DownloadFacts.master_loop_never_settles More.looping
           "https://host/vod/loop.m3u8" "/app/downloads/v.ts"
           (Examples.unlines ["#EXTM3U"; "#EXT-X-STREAM-INF:BANDWIDTH=1"; "loop.m3u8"])).
  - reflexivity.
  - reflexivity.
Defined.

Lemma no_process_without_input_and_binary_witness :
  exists message,
    Converter.runFFmpeg Examples.offline "/app/downloads/v.ts" "/app/downloads/v.mp4"
      ["-i"; "/app/downloads/v.ts"; "-f"; "mp4"; "-y"; "/app/downloads/v.mp4"]
      Examples.start
    = (Throw message,
       logged (Console (FFmpegCommand
                 ["-i"; "/app/downloads/v.ts"; "-f"; "mp4"; "-y"; "/app/downloads/v.mp4"]))
         Examples.start).
Proof.
  destruct (ConversionFacts.no_process_without_input_and_binary Examples.offline
              "/app/downloads/v.ts" "/app/downloads/v.mp4"
              ["-i"; "/app/downloads/v.ts"; "-f"; "mp4"; "-y"; "/app/downloads/v.mp4"]
              Examples.start) as (message & Hrun & _).
  - left. reflexivity.
  - exists message. exact Hrun.
Defined.

Lemma hanging_tool_is_killed_witness :
  fst (Converter.runFFmpeg Examples.stalled "/app/downloads/v.ts" "/app/downloads/v.mp4"
         ["-i"; "/app/downloads/v.ts"; "-f"; "mp4"; "-y"; "/app/downloads/v.mp4"]
         Examples.downloaded)
  = Throw Converter.TIMEOUT.
Proof.
  destruct (ConversionFacts.hanging_tool_is_killed Examples.stalled
              "/app/downloads/v.ts" "/app/downloads/v.mp4"
              ["-i"; "/app/downloads/v.ts"; "-f"; "mp4"; "-y"; "/app/downloads/v.mp4"]
              Examples.downloaded "/bin/ffmpeg" (fs Examples.downloaded))
    as (Hthrows & _).
  - vm_compute. eauto.
  - reflexivity.
  - reflexivity.
  - vm_compute. eauto.
  - reflexivity.
  - exact Hthrows.
Defined.

Lemma conversion_leaves_output_witness :
  exists b content,
    fs (snd (Converter.convertTsToMp4 Examples.unstartable_once "/app/downloads/v.ts"
               "/app/downloads/v.mp4" Examples.downloaded)) !! "/app/downloads/v.mp4"
    = Some (b :: content).
Proof.
  apply (ConversionFacts.conversion_leaves_output Examples.unstartable_once).
  reflexivity.
Defined.

Lemma page_without_video_id_witness :
  fst (Server.download_vod Examples.offline 1
         (JS.Str "https://www.twitch.tv/somechannel") (JS.Str "clip.mp4")
         Examples.downloaded)
  = Return (Server.Status500
              ("Twitch M3U8 extraction failed: " +:+ Resolver.NO_ID)
              "HLS download or MP4 conversion failed"
              Server.POSSIBLE_CAUSES Server.SUGGESTIONS).
Proof.
  destruct (RouteFacts.page_without_video_id Examples.offline 1
              "https://www.twitch.tv/somechannel" "clip.mp4" Examples.downloaded)
    as (Hanswer & _); [reflexivity..|exact Hanswer].
Defined.

Lemma packet_check_of_three_packets_witness :
  PacketCheck.check (replicate 564 x47%byte) = PacketCheck.ValidStructure.
Proof.
  destruct (PacketFacts.packet_check_of_three_packets (replicate 564 x47%byte))
    as (_ & _ & Hcheck & _).
  - rewrite length_replicate. lia.
  - rewrite Hcheck. reflexivity.
Defined.

Lemma partial_packet_is_counted_witness :
  PacketCheck.validPackets [x47; x40; x00]%byte = 1
  /\ PacketCheck.expected [x47; x40; x00]%byte = 0.
Proof.
  destruct (PacketFacts.partial_packet_is_counted [x40; x00]%byte)
    as (Hvalid & Hexpected & _).
  - cbn. lia.
  - split; [exact Hvalid|exact Hexpected].
Defined.

Lemma downloaded_stream_is_delivered_witness :
  match fst (Server.check_and_convert More.converting 2 "/app/downloads/v.ts"
               "/app/downloads/v.mp4" "v.ts" "v.mp4" Examples.downloaded) with
  | Return body => Server.format body = "MP4" \/ Server.format body = "TS"
  | Throw _ => False
  | Diverge => True
  | Crash _ => False
  end.
Proof.
  pose proof (DeliveryFacts.downloaded_stream_is_delivered More.converting
                "/app/downloads/v.ts" [x47]%byte) as Hdelivered.
  specialize (Hdelivered
                ltac:(intros n command args files; apply lookup_insert_ne; discriminate)
                2 "/app/downloads/v.mp4" "v.ts" "v.mp4" Examples.downloaded
                eq_refl ltac:(discriminate)).
  cbv zeta in Hdelivered.
  destruct (fst (Server.check_and_convert More.converting 2 "/app/downloads/v.ts"
                   "/app/downloads/v.mp4" "v.ts" "v.mp4" Examples.downloaded))
    as [body|message| |message]; [|exact Hdelivered|exact I|exact Hdelivered].
  destruct Hdelivered as [_ [(Hformat & _)|(Hformat & _)]]; auto.
Defined.

End Instances.
